(** * SEPERA: feature derivation and diagram annotation of [full_app]

    A shallow embedding of the [if submitted:] body of [full_app] in
    [SEPERA.py]: the two per-lobe feature dictionaries [pt_data] and
    [pt_data_r], the text labels and overlay pastes of the annotated
    prostate diagram, and the calls made to the SHAP explainer.

    Numbers.  Python [int]s are [Z].  A Python [float] is modelled by the
    rational [Q] it denotes, and two floats are the same number when they
    are [Qeq]-equal.  The values the widgets return and the quotient
    [psa/vol] are kept as exact rationals.  The quotient of two ints and
    its product with 100 are rounded as binary64 arithmetic rounds them, to
    the nearest float with ties to even.  Python raises
    [ZeroDivisionError] on a division by an integer or float zero; that is
    kept.  A quotient of ints beyond the float range, where Python raises
    [OverflowError], is not modelled: it needs a count above 2^1023, and
    the widgets stop at 30. *)

From Stdlib Require Import ZArith QArith Qminmax Qabs List String Ascii Bool Lia.
From Stdlib Require Import Permutation SpecFloat.
Import ListNotations.

Open Scope string_scope.
Open Scope list_scope.
Open Scope Z_scope.

(** ** Python exceptions and the result of a pure expression *)

Inductive exn : Type :=
| ZeroDivisionError
| KeyError.

Inductive result (A : Type) : Type :=
| Ok (a : A)
| Raise (e : exn).

Arguments Ok {A} a.
Arguments Raise {A} e.

Definition rbind {A B : Type} (r : result A) (k : A -> result B) : result B :=
  match r with
  | Ok a => k a
  | Raise e => Raise e
  end.

Notation "'let?' x ':=' r 'in' k" := (rbind r (fun x => k))
  (at level 10, x name, r at level 100, k at level 200).

(** [a / b] on two floats. *)
Definition truediv (a b : Q) : result Q :=
  if Qeq_bool b 0 then Raise ZeroDivisionError else Ok (a / b)%Q.

(** The rational a finite binary64 float denotes. *)
Definition SF2Q (x : spec_float) : Q :=
  match x with
  | S754_finite s m e =>
      let n := if s then Z.neg m else Z.pos m in
      Qred match e with
           | Z0 => inject_Z n
           | Z.pos p => inject_Z (n * 2 ^ Z.pos p)
           | Z.neg p => n # (2 ^ p)%positive
           end
  | _ => 0%Q
  end.

(** The binary64 float nearest to a rational, ties to even: the numerator
    is divided by the denominator as the standard library's specification
    of binary64 division divides two mantissas.  A rational beyond the
    float range is left as it is. *)
Definition round_float (q : Q) : Q :=
  let quotient (s : bool) (n : positive) :=
    match SFdiv 53 1024 (S754_finite s n 0) (S754_finite false (Qden q) 0) with
    | S754_finite s' m e => SF2Q (S754_finite s' m e)
    | S754_zero _ => 0%Q
    | S754_infinity _ | S754_nan => q
    end in
  match Qnum q with
  | Z0 => 0%Q
  | Z.pos n => quotient false n
  | Z.neg n => quotient true n
  end.

(** [x * y] on two floats. *)
Definition float_mul (x y : Q) : Q := round_float (x * y).

(** [a / b] on two ints: true division, the quotient is the float nearest
    to the exact one. *)
Definition truediv_int (a b : Z) : result Q :=
  if b =? 0 then Raise ZeroDivisionError
  else Ok (round_float (inject_Z a / inject_Z b)).

(** ** Values held by a dictionary or a data frame cell *)

Inductive value : Type :=
| VInt (z : Z)
| VFloat (q : Q)
| VNaN.

(** A Python [dict] with string keys, in insertion order. *)
Definition dict : Type := list (string * value).

Fixpoint dict_get (k : string) (d : dict) : option value :=
  match d with
  | [] => None
  | (k', v) :: d' => if String.eqb k k' then Some v else dict_get k d'
  end.

Definition keys (d : dict) : list string := map fst d.

(** ** The two-column data frame of a lobe *)

Record row : Type := mkRow {
  index : nat;
  Gleason : Z;
  core_involvement : Q
}.

Definition frame : Type := list row.

Fixpoint frame_from (i : nat) (gs : list Z) (ps : list Q) : frame :=
  match gs, ps with
  | g :: gs', p :: ps' => mkRow i g p :: frame_from (S i) gs' ps'
  | _, _ => []
  end.

(** [pd.DataFrame({'Gleason': gs, '% core involvement': ps})] *)
Definition DataFrame (gs : list Z) (ps : list Q) : frame := frame_from 0 gs ps.

(** [precedes a b]: row [a] comes strictly before row [b] when sorting by
    ['Gleason'] then ['% core involvement'], both descending. *)
Definition precedes (a b : row) : bool :=
  (Gleason b <? Gleason a)
  || ((Gleason a =? Gleason b)
      && match (core_involvement a ?= core_involvement b)%Q with
         | Gt => true
         | _ => false
         end).

Fixpoint insert_row (x : row) (l : frame) : frame :=
  match l with
  | [] => [x]
  | y :: t => if precedes y x then y :: insert_row x t else x :: y :: t
  end.

(** [df.sort_values(by=['Gleason', '% core involvement'], ascending=False)]:
    a stable sort, rows that tie on both keys keep their order. *)
Definition sort_values (df : frame) : frame := fold_right insert_row [] df.

(** [df['Gleason'].max()]: the maximum of the integer column, NaN when the
    column is empty. *)
Definition Gleason_max (df : frame) : value :=
  match map Gleason df with
  | [] => VNaN
  | g :: gs => VInt (fold_left Z.max gs g)
  end.

(** [df['% core involvement'].max()] *)
Definition core_involvement_max (df : frame) : value :=
  match map core_involvement df with
  | [] => VNaN
  | p :: ps => VFloat (fold_left Qmax ps p)
  end.

(** ** The submitted form *)

Record form : Type := mkForm {
  age : Z;
  psa : Q;
  vol : Q;
  p_high : Q;
  perineural_inv : Z;
  base_findings : Z;
  base_p_inv : Q;
  mid_findings : Z;
  mid_p_inv : Q;
  apex_findings : Z;
  apex_p_inv : Q;
  pos_core : Z;
  taken_core : Z;
  base_findings_r : Z;
  base_p_inv_r : Q;
  mid_findings_r : Z;
  mid_p_inv_r : Q;
  apex_findings_r : Z;
  apex_p_inv_r : Q;
  pos_core_r : Z;
  taken_core_r : Z
}.

(** The bounds of the form widgets: [st.number_input(label, min, max, _)]
    and the options of each [st.selectbox]. *)
Definition in_Z_range (lo hi x : Z) : bool := (lo <=? x) && (x <=? hi).
Definition in_Q_range (lo hi x : Q) : bool := Qle_bool lo x && Qle_bool x hi.
Definition is_grade (g : Z) : bool := in_Z_range 0 5 g.
Definition is_percent (p : Q) : bool := in_Q_range 0 100 p.

Definition in_domain (f : form) : bool :=
  in_Z_range 0 100 (age f)
  && in_Q_range 0 200 (psa f)
  && in_Q_range 0 300 (vol f)
  && is_percent (p_high f)
  && in_Z_range 0 1 (perineural_inv f)
  && is_grade (base_findings f) && is_percent (base_p_inv f)
  && is_grade (mid_findings f) && is_percent (mid_p_inv f)
  && is_grade (apex_findings f) && is_percent (apex_p_inv f)
  && in_Z_range 0 30 (pos_core f) && in_Z_range 0 30 (taken_core f)
  && is_grade (base_findings_r f) && is_percent (base_p_inv_r f)
  && is_grade (mid_findings_r f) && is_percent (mid_p_inv_r f)
  && is_grade (apex_findings_r f) && is_percent (apex_p_inv_r f)
  && in_Z_range 0 30 (pos_core_r f) && in_Z_range 0 30 (taken_core_r f).

(** The values the form shows before the user edits anything. *)
Definition default_form : form :=
  mkForm 60 7 40 22.5 1
         3 7.5 3 5 0 0 3 6
         5 45 4 45 3 20 5 8.

(** ** Feature derivation *)

Definition features_list : list string :=
  [ "Age at Biopsy";
    "Worst Gleason Grade Group";
    "PSA density";
    "Perineural invasion";
    "% positive cores";
    "% Gleason pattern 4/5";
    "Max % core involvement";
    "Base finding";
    "Base % core involvement";
    "Mid % core involvement";
    "Apex % core involvement" ].

Definition gleason_t (f : form) : list Z :=
  [base_findings f; mid_findings f; apex_findings f].
Definition p_inv_t (f : form) : list Q :=
  [base_p_inv f; mid_p_inv f; apex_p_inv f].
Definition g_p_inv (f : form) : frame := DataFrame (gleason_t f) (p_inv_t f).
Definition sort_g_p_inv (f : form) : frame := sort_values (g_p_inv f).

Definition gleason_t_r (f : form) : list Z :=
  [base_findings_r f; mid_findings_r f; apex_findings_r f].
Definition p_inv_t_r (f : form) : list Q :=
  [base_p_inv_r f; mid_p_inv_r f; apex_p_inv_r f].
Definition g_p_inv_r (f : form) : frame := DataFrame (gleason_t_r f) (p_inv_t_r f).
Definition sort_g_p_inv_r (f : form) : frame := sort_values (g_p_inv_r f).

(** The dictionary literal of the left lobe; its entries are evaluated in
    the order they are written. *)
Definition pt_data (f : form) : result dict :=
  let v_age := VInt (age f) in
  let v_worst := Gleason_max (sort_g_p_inv f) in
  let? density := truediv (psa f) (vol f) in
  let v_pni := VInt (perineural_inv f) in
  let? ratio := truediv_int (pos_core f) (taken_core f) in
  let v_pos := VFloat (float_mul ratio 100) in
  let v_high := VFloat (p_high f) in
  let v_max := core_involvement_max (sort_g_p_inv f) in
  Ok [ ("Age at Biopsy", v_age);
       ("Worst Gleason Grade Group", v_worst);
       ("PSA density", VFloat density);
       ("Perineural invasion", v_pni);
       ("% positive cores", v_pos);
       ("% Gleason pattern 4/5", v_high);
       ("Max % core involvement", v_max);
       ("Base finding", VInt (base_findings f));
       ("Base % core involvement", VFloat (base_p_inv f));
       ("Mid % core involvement", VFloat (mid_p_inv f));
       ("Apex % core involvement", VFloat (apex_p_inv f)) ].

(** The dictionary literal of the right lobe.  As in the source, the worst
    grade group is read from [sort_g_p_inv], the frame of the left lobe. *)
Definition pt_data_r (f : form) : result dict :=
  let v_age := VInt (age f) in
  let v_worst := Gleason_max (sort_g_p_inv f) in
  let? density := truediv (psa f) (vol f) in
  let v_pni := VInt (perineural_inv f) in
  let? ratio := truediv_int (pos_core_r f) (taken_core_r f) in
  let v_pos := VFloat (float_mul ratio 100) in
  let v_high := VFloat (p_high f) in
  let v_max := core_involvement_max (sort_g_p_inv_r f) in
  Ok [ ("Age at Biopsy", v_age);
       ("Worst Gleason Grade Group", v_worst);
       ("PSA density", VFloat density);
       ("Perineural invasion", v_pni);
       ("% positive cores", v_pos);
       ("% Gleason pattern 4/5", v_high);
       ("Max % core involvement", v_max);
       ("Base finding", VInt (base_findings_r f));
       ("Base % core involvement", VFloat (base_p_inv_r f));
       ("Mid % core involvement", VFloat (mid_p_inv_r f));
       ("Apex % core involvement", VFloat (apex_p_inv_r f)) ].

(** ** Effects: what [full_app] draws and what it asks of the explainer *)

Inductive transform : Type :=
| flip      (* PIL.ImageOps.flip: top to bottom *)
| mirror.   (* PIL.ImageOps.mirror: left to right *)

Inductive event : Type :=
| paste (file : string) (ops : list transform) (box : Z * Z)
| draw_text (xy : Z * Z) (text : string)
| shap_values (X : dict)
| force_plot (X : dict) (feature_names : list string).

(** A computation appends events to the trace and returns or raises. *)
Definition M (A : Type) : Type := list event -> list event * result A.

Definition ret {A : Type} (a : A) : M A := fun t => (t, Ok a).

Definition bind {A B : Type} (m : M A) (k : A -> M B) : M B :=
  fun t =>
    match m t with
    | (t', Ok a) => k a t'
    | (t', Raise e) => (t', Raise e)
    end.

Definition lift {A : Type} (r : result A) : M A := fun t => (t, r).

Definition emit (e : event) : M unit := fun t => (t ++ [e], Ok tt).

(** An [if] statement with no [else]. *)
Definition when (b : bool) (m : M unit) : M unit := if b then m else ret tt.

Notation "x <- m ;; k" := (bind m (fun x => k))
  (at level 61, m at next level, right associativity).
Notation "m ;;; k" := (bind m (fun _ => k))
  (at level 61, right associativity).

Definition G_CHOICES : list (Z * string) :=
  [ (0, "Benign");
    (1, "ISUP Grade 1 (Gleason 3+3)");
    (2, "ISUP Grade 2 (Gleason 3+4)");
    (3, "ISUP Grade 3 (Gleason 4+3)");
    (4, "ISUP Grade 4 (Gleason 4+4/5+3/3+5)");
    (5, "ISUP Grade 5 (Gleason 4+5/5+4/5+5)") ].

(** [d[k]] on a dictionary with integer keys. *)
Fixpoint getitem (d : list (Z * string)) (k : Z) : result string :=
  match d with
  | [] => Raise KeyError
  | (k', v) :: d' => if k =? k' then Ok v else getitem d' k
  end.

Definition newline : string := String (ascii_of_nat 10) EmptyString.

Section FullApp.

(** [str] on a float: the shortest decimal text that reads back as the same
    float.  It is left abstract. *)
Variable py_str : Q -> string.

(** [str(G_CHOICES[g]) + '\n' + '% core inv: ' + str(p)] *)
Definition site_label (g : Z) (p : Q) : result string :=
  let? name := getitem G_CHOICES g in
  Ok (name ++ newline ++ "% core inv: " ++ py_str p)%string.

(** The thirty [if] statements that paste a colour-coded site image. *)
Definition paste_overlays (f : form) : M unit :=
  when (base_findings f =? 1) (emit (paste "Images/Corner 1.png" [flip] (145, 958))) ;;;
  when (base_findings f =? 2) (emit (paste "Images/Corner 2.png" [flip] (145, 958))) ;;;
  when (base_findings f =? 3) (emit (paste "Images/Corner 3.png" [flip] (145, 958))) ;;;
  when (base_findings f =? 4) (emit (paste "Images/Corner 4.png" [flip] (145, 958))) ;;;
  when (base_findings f =? 5) (emit (paste "Images/Corner 5.png" [flip] (145, 958))) ;;;

  when (mid_findings f =? 1) (emit (paste "Images/Mid 1.png" [] (145, 606))) ;;;
  when (mid_findings f =? 2) (emit (paste "Images/Mid 2.png" [] (145, 606))) ;;;
  when (mid_findings f =? 3) (emit (paste "Images/Mid 3.png" [] (145, 606))) ;;;
  when (mid_findings f =? 4) (emit (paste "Images/Mid 4.png" [] (145, 606))) ;;;
  when (mid_findings f =? 5) (emit (paste "Images/Mid 5.png" [] (145, 606))) ;;;

  when (apex_findings f =? 1) (emit (paste "Images/Corner 1.png" [] (145, 130))) ;;;
  when (apex_findings f =? 2) (emit (paste "Images/Corner 2.png" [] (145, 130))) ;;;
  when (apex_findings f =? 3) (emit (paste "Images/Corner 3.png" [] (145, 130))) ;;;
  when (apex_findings f =? 4) (emit (paste "Images/Corner 4.png" [] (145, 130))) ;;;
  when (apex_findings f =? 5) (emit (paste "Images/Corner 5.png" [] (145, 130))) ;;;

  when (base_findings_r f =? 1) (emit (paste "Images/Corner 1.png" [mirror; flip] (1104, 958))) ;;;
  when (base_findings_r f =? 2) (emit (paste "Images/Corner 2.png" [mirror; flip] (1104, 958))) ;;;
  when (base_findings_r f =? 3) (emit (paste "Images/Corner 3.png" [mirror; flip] (1104, 958))) ;;;
  when (base_findings_r f =? 4) (emit (paste "Images/Corner 4.png" [mirror; flip] (1104, 958))) ;;;
  when (base_findings_r f =? 5) (emit (paste "Images/Corner 5.png" [mirror; flip] (1104, 958))) ;;;

  when (mid_findings_r f =? 1) (emit (paste "Images/Mid 1.png" [] (1542, 606))) ;;;
  when (mid_findings_r f =? 2) (emit (paste "Images/Mid 2.png" [] (1542, 606))) ;;;
  when (mid_findings_r f =? 3) (emit (paste "Images/Mid 3.png" [] (1542, 606))) ;;;
  when (mid_findings_r f =? 4) (emit (paste "Images/Mid 4.png" [] (1542, 606))) ;;;
  when (mid_findings_r f =? 5) (emit (paste "Images/Mid 5.png" [] (1542, 606))) ;;;

  when (apex_findings_r f =? 1) (emit (paste "Images/Corner 1.png" [mirror] (1104, 130))) ;;;
  when (apex_findings_r f =? 2) (emit (paste "Images/Corner 2.png" [mirror] (1104, 130))) ;;;
  when (apex_findings_r f =? 3) (emit (paste "Images/Corner 3.png" [mirror] (1104, 130))) ;;;
  when (apex_findings_r f =? 4) (emit (paste "Images/Corner 4.png" [mirror] (1104, 130))) ;;;
  when (apex_findings_r f =? 5) (emit (paste "Images/Corner 5.png" [mirror] (1104, 130))).

(** The body of [full_app] from the form's submit button on.  Widgets that
    only display ([col1.image], [col1.write], [col2.pyplot], ...) leave no
    event. *)
Definition full_app (submitted : bool) (f : form) : M unit :=
  if submitted then
    pt_features <- lift (pt_data f) ;;
    pt_features_r <- lift (pt_data_r f) ;;
    base_L <- lift (site_label (base_findings f) (base_p_inv f)) ;;
    mid_L <- lift (site_label (mid_findings f) (mid_p_inv f)) ;;
    apex_L <- lift (site_label (apex_findings f) (apex_p_inv f)) ;;
    base_R <- lift (site_label (base_findings_r f) (base_p_inv_r f)) ;;
    mid_R <- lift (site_label (mid_findings_r f) (mid_p_inv_r f)) ;;
    apex_R <- lift (site_label (apex_findings_r f) (apex_p_inv_r f)) ;;
    paste_overlays f ;;;
    emit (draw_text (525, 1110) base_L) ;;;
    emit (draw_text (205, 690) mid_L) ;;;
    emit (draw_text (525, 275) apex_L) ;;;
    emit (draw_text (1300, 1110) base_R) ;;;
    emit (draw_text (1590, 690) mid_R) ;;;
    emit (draw_text (1300, 275) apex_R) ;;;
    emit (shap_values pt_features) ;;;
    emit (force_plot pt_features features_list) ;;;
    emit (shap_values pt_features_r) ;;;
    emit (force_plot pt_features_r features_list)
  else ret tt.

End FullApp.

(** ** The overlay mapping as a table

    The declarative reading of the diagram annotator: a site is a position
    within a side, and a grade selects at most one overlay for it. *)

Inductive position : Type := Base | Mid | Apex.
Inductive side : Type := Left | Right.

Definition grade_digit (g : Z) : string :=
  String (ascii_of_nat (48 + Z.to_nat g)) EmptyString.

Definition asset (pos : position) (g : Z) : string :=
  (match pos with
   | Mid => "Images/Mid "
   | Base | Apex => "Images/Corner "
   end ++ grade_digit g ++ ".png")%string.

Definition orientation (pos : position) (sd : side) : list transform :=
  match pos, sd with
  | Base, Left => [flip]
  | Base, Right => [mirror; flip]
  | Apex, Right => [mirror]
  | Apex, Left => []
  | Mid, _ => []
  end.

Definition placement (pos : position) (sd : side) : Z * Z :=
  match pos, sd with
  | Base, Left => (145, 958)
  | Mid, Left => (145, 606)
  | Apex, Left => (145, 130)
  | Base, Right => (1104, 958)
  | Mid, Right => (1542, 606)
  | Apex, Right => (1104, 130)
  end.

Definition label_placement (pos : position) (sd : side) : Z * Z :=
  match pos, sd with
  | Base, Left => (525, 1110)
  | Mid, Left => (205, 690)
  | Apex, Left => (525, 275)
  | Base, Right => (1300, 1110)
  | Mid, Right => (1590, 690)
  | Apex, Right => (1300, 275)
  end.

(** Grade 0 (benign) selects no overlay, a grade from 1 to 5 exactly one. *)
Definition overlay_table (g : Z) (pos : position) (sd : side) : list event :=
  if (1 <=? g) && (g <=? 5)
  then [paste (asset pos g) (orientation pos sd) (placement pos sd)]
  else [].

Definition site_grade (f : form) (pos : position) (sd : side) : Z :=
  match pos, sd with
  | Base, Left => base_findings f
  | Mid, Left => mid_findings f
  | Apex, Left => apex_findings f
  | Base, Right => base_findings_r f
  | Mid, Right => mid_findings_r f
  | Apex, Right => apex_findings_r f
  end.

Definition site_involvement (f : form) (pos : position) (sd : side) : Q :=
  match pos, sd with
  | Base, Left => base_p_inv f
  | Mid, Left => mid_p_inv f
  | Apex, Left => apex_p_inv f
  | Base, Right => base_p_inv_r f
  | Mid, Right => mid_p_inv_r f
  | Apex, Right => apex_p_inv_r f
  end.

(** The six sites in the order the source visits them. *)
Definition sites : list (position * side) :=
  [ (Base, Left); (Mid, Left); (Apex, Left);
    (Base, Right); (Mid, Right); (Apex, Right) ].

(** ** Sameness of numbers

    Two values are the same number when they are the same integer or
    [Qeq]-equal floats. *)

Definition value_eqv (v w : value) : Prop :=
  match v, w with
  | VInt a, VInt b => a = b
  | VFloat p, VFloat q => (p == q)%Q
  | VNaN, VNaN => True
  | _, _ => False
  end.

Definition opt_value_eqv (v w : option value) : Prop :=
  match v, w with
  | Some a, Some b => value_eqv a b
  | None, None => True
  | _, _ => False
  end.

(** The spec's reading of the dominant involvement: the involvement in the
    first row of the severity-sorted frame. *)
Definition dominant_involvement (df : frame) : option Q :=
  match sort_values df with
  | r :: _ => Some (core_involvement r)
  | [] => None
  end.

(** The (grade, involvement) pairs of a lobe, base then mid then apex. *)
Definition left_sites (f : form) : list (Z * Q) :=
  [ (base_findings f, base_p_inv f);
    (mid_findings f, mid_p_inv f);
    (apex_findings f, apex_p_inv f) ].

Definition right_sites (f : form) : list (Z * Q) :=
  [ (base_findings_r f, base_p_inv_r f);
    (mid_findings_r f, mid_p_inv_r f);
    (apex_findings_r f, apex_p_inv_r f) ].

(** Everything on the form that is not a site finding. *)
Definition patient_fields (f : form) : Z * Q * Q * Q * Z * (Z * Z) * (Z * Z) :=
  (age f, psa f, vol f, p_high f, perineural_inv f,
   (pos_core f, taken_core f), (pos_core_r f, taken_core_r f)).

Definition positional_keys : list string :=
  [ "Base finding";
    "Base % core involvement";
    "Mid % core involvement";
    "Apex % core involvement" ].

(** The names the feature schema gives to the eleven columns. *)
Inductive field : Type :=
| AgeAtBiopsy
| WorstGradeGroup
| PsaDensity
| PerineuralInvasion
| PercentPositiveCores
| PercentPatternHighGrade
| MaxPercentCoreInvolvement
| BaseFinding
| BasePercentCoreInvolvement
| MidPercentCoreInvolvement
| ApexPercentCoreInvolvement.

Definition column (x : field) : string :=
  match x with
  | AgeAtBiopsy => "Age at Biopsy"
  | WorstGradeGroup => "Worst Gleason Grade Group"
  | PsaDensity => "PSA density"
  | PerineuralInvasion => "Perineural invasion"
  | PercentPositiveCores => "% positive cores"
  | PercentPatternHighGrade => "% Gleason pattern 4/5"
  | MaxPercentCoreInvolvement => "Max % core involvement"
  | BaseFinding => "Base finding"
  | BasePercentCoreInvolvement => "Base % core involvement"
  | MidPercentCoreInvolvement => "Mid % core involvement"
  | ApexPercentCoreInvolvement => "Apex % core involvement"
  end.

Definition schema : list field :=
  [ AgeAtBiopsy; WorstGradeGroup; PsaDensity; PerineuralInvasion;
    PercentPositiveCores; PercentPatternHighGrade; MaxPercentCoreInvolvement;
    BaseFinding; BasePercentCoreInvolvement; MidPercentCoreInvolvement;
    ApexPercentCoreInvolvement ].

Definition feature (x : field) (d : dict) : option value := dict_get (column x) d.

(** Forms used as concrete inputs below. *)

(** Two sites tied at grade 4 with involvements 30 and 60, a third site at
    grade 2 with involvement 90, on both lobes. *)
Definition tied_form : form :=
  mkForm 60 7 40 22.5 1
         4 30 4 60 2 90 3 6
         4 30 4 60 2 90 3 6.


Definition no_cores_form : form :=
  mkForm 60 7 40 22.5 1
         3 7.5 3 5 0 0 0 0
         5 45 4 45 3 20 5 8.


(** [default_form] with the sites of each lobe listed in another order. *)
Definition permuted_form : form :=
  mkForm 60 7 40 22.5 1
         0 0 3 7.5 3 5 3 6
         4 45 3 20 5 45 5 8.

(** ** Notions used to state the properties *)

(** [m] is a greatest element of [l]. *)
Definition is_max_Z (m : Z) (l : list Z) : Prop :=
  In m l /\ Forall (fun x => x <= m) l.

Definition is_max_Q (m : Q) (l : list Q) : Prop :=
  In m l /\ Forall (fun x => (x <= m)%Q) l.

(** The events of five consecutive [if g == k: paste ...] statements. *)
Definition site_ifs (g : Z) (e1 e2 e3 e4 e5 : event) : list event :=
  (if g =? 1 then [e1] else [])
  ++ (if g =? 2 then [e2] else [])
  ++ (if g =? 3 then [e3] else [])
  ++ (if g =? 4 then [e4] else [])
  ++ (if g =? 5 then [e5] else []).

(** The name [G_CHOICES] gives a finding, empty off the table. *)
Definition finding_name (g : Z) : string :=
  match getitem G_CHOICES g with
  | Ok s => s
  | Raise _ => EmptyString
  end.

(** The text drawn next to a site. *)
Definition label_text (py_str : Q -> string) (g : Z) (p : Q) : string :=
  (finding_name g ++ newline ++ "% core inv: " ++ py_str p)%string.

(** What the table selects for a site of the form, and the label drawn
    for it. *)
Definition site_overlay (f : form) (s : position * side) : list event :=
  overlay_table (site_grade f (fst s) (snd s)) (fst s) (snd s).

Definition site_text (py_str : Q -> string) (f : form) (s : position * side)
  : event :=
  draw_text (label_placement (fst s) (snd s))
            (label_text py_str (site_grade f (fst s) (snd s))
                        (site_involvement f (fst s) (snd s))).

(** ** The rest of [full_app]: widget labels and artifact loading *)

Definition CHOICES : list (Z * string) := [ (0, "No"); (1, "Yes") ].

(** [list(d.keys())], the options a select box offers. *)
Definition options (d : list (Z * string)) : list Z := map fst d.

Definition format_func_yn (option : Z) : result string := getitem CHOICES option.

Definition format_func_gleason (option : Z) : result string :=
  getitem G_CHOICES option.

Section LoadItems.

(** Unpickled Python objects: the model, the feature table, the explainer
    and its SHAP values.  They are left abstract, with the three external
    computations that produce them. *)
Variable obj : Type.

(** The object Google Drive serves under a file id. *)
Variable remote : string -> obj.

(** [shap.TreeExplainer(model, np.array(features), model_output='probability')] *)
Variable TreeExplainer : obj -> obj -> obj.

(** [explainer2(features)] *)
Variable call_explainer : obj -> obj -> obj.

(** The files under the working directory: a path holds a pickled object
    or does not exist. *)
Definition files : Type := string -> option obj.

(** [path.exists()] *)
Definition path_exists (path : string) (fs : files) : bool :=
  match fs path with
  | Some _ => true
  | None => false
  end.

(** [joblib.dump(o, path)] *)
Definition joblib_dump (o : obj) (path : string) (fs : files) : files :=
  fun q => if String.eqb q path then Some o else fs q.

(** [joblib.load(path)]; [None] stands for [FileNotFoundError]. *)
Definition joblib_load (path : string) (fs : files) : option obj := fs path.

(** [gdd.download_file_from_google_drive(file_id, dest_path)], called on a
    destination that does not exist: the served file is written there.  A
    download that fails is not modelled. *)
Definition download_file_from_google_drive (file_id dest_path : string)
           (fs : files) : files :=
  joblib_dump (remote file_id) dest_path fs.

Definition model_checkpoint : string := "model/SEPERA.pkl".
Definition feature_checkpoint : string := "model/Features.pkl".
Definition explainer_checkpoint : string := "model/explainer.pkl".
Definition shap_checkpoint : string := "model/model shap.pkl".

Definition checkpoints : list string :=
  [ model_checkpoint; feature_checkpoint;
    explainer_checkpoint; shap_checkpoint ].

Record items : Type := mkItems {
  model : obj;
  features : obj;
  explainer : obj;
  model_shap : obj
}.

(** What a run of [load_items] leaves: the files, the downloads it made as
    (file id, destination) pairs, and the four objects it returns. *)
Record loaded : Type := mkLoaded {
  files_after : files;
  downloads : list (string * string);
  returned : option items
}.

(** The body of [load_items] from its first [exists] test on;
    [Model_location] and [Feature_location] are the two file ids read from
    [st.secrets].  The run is followed under three assumptions: the
    directory [model] that [save_dest.mkdir(exist_ok=True)] asks for is
    there, each download succeeds, and a file that exists unpickles to the
    object it holds.  Directories are not among the files. *)
Definition load_items (Model_location Feature_location : string)
           (fs : files) : loaded :=
  let '(fs1, log1) :=
    if negb (path_exists model_checkpoint fs)
    then (download_file_from_google_drive Model_location model_checkpoint fs,
          [(Model_location, model_checkpoint)])
    else (fs, []) in
  let '(fs2, log2) :=
    if negb (path_exists feature_checkpoint fs1)
    then (download_file_from_google_drive Feature_location
                                          feature_checkpoint fs1,
          log1 ++ [(Feature_location, feature_checkpoint)])
    else (fs1, log1) in
  match joblib_load model_checkpoint fs2 with
  | None => mkLoaded fs2 log2 None
  | Some model =>
    match joblib_load feature_checkpoint fs2 with
    | None => mkLoaded fs2 log2 None
    | Some features =>
      let fs3 :=
        if negb (path_exists explainer_checkpoint fs2)
        then joblib_dump (TreeExplainer model features) explainer_checkpoint fs2
        else fs2 in
      match joblib_load explainer_checkpoint fs3 with
      | None => mkLoaded fs3 log2 None
      | Some explainer2 =>
        let fs4 :=
          if negb (path_exists shap_checkpoint fs3)
          then joblib_dump (call_explainer explainer2 features)
                           shap_checkpoint fs3
          else fs3 in
        match joblib_load shap_checkpoint fs4 with
        | None => mkLoaded fs4 log2 None
        | Some model_shap2 =>
          mkLoaded fs4 log2
                   (Some (mkItems model features explainer2 model_shap2))
        end
      end
    end
  end.

End LoadItems.

Arguments path_exists {obj} path fs.
Arguments joblib_dump {obj} o path fs.
Arguments joblib_load {obj} path fs.
Arguments load_items {obj} remote TreeExplainer call_explainer
  Model_location Feature_location fs.
Arguments files_after {obj} l.
Arguments downloads {obj} l.
Arguments returned {obj} l.
Arguments mkItems {obj} model features explainer model_shap.
Arguments model {obj} i.
Arguments features {obj} i.
Arguments explainer {obj} i.
Arguments model_shap {obj} i.

(** An empty directory. *)
Definition no_files {obj : Type} : files obj := fun _ => None.

(** ** Further notions for the properties *)

Definition is_paste (e : event) : bool :=
  match e with paste _ _ _ => true | _ => false end.

Definition is_draw_text (e : event) : bool :=
  match e with draw_text _ _ => true | _ => false end.

Definition is_explainer_call (e : event) : bool :=
  match e with shap_values _ | force_plot _ _ => true | _ => false end.

(** The sites of the form whose finding is not benign. *)
Definition malignant_sites (f : form) : list (position * side) :=
  filter (fun s => negb (site_grade f (fst s) (snd s) =? 0)) sites.

Definition all_grades_listed (f : form) : bool :=
  forallb (fun s => is_grade (site_grade f (fst s) (snd s))) sites.

(** [row_before a b]: in the sorted frame [a] may stand before [b]: it
    strictly precedes it, or ties with it on both keys and has the smaller
    index. *)
Definition row_before (a b : row) : Prop :=
  precedes a b = true
  \/ (precedes a b = false /\ precedes b a = false /\ (index a < index b)%nat).

(** Every row may stand before all the rows that follow it. *)
Fixpoint ranked (l : frame) : Prop :=
  match l with
  | [] => True
  | x :: t => Forall (row_before x) t /\ ranked t
  end.

(** Row indices increase along the frame, as in a freshly built one. *)
Fixpoint index_increasing (l : frame) : Prop :=
  match l with
  | [] => True
  | x :: t => Forall (fun y => (index x < index y)%nat) t /\ index_increasing t
  end.

(** Everything the left dictionary literal reads. *)
Definition left_inputs (f : form)
  : Z * Q * Q * Q * Z * list (Z * Q) * Z * Z :=
  (age f, psa f, vol f, p_high f, perineural_inv f,
   left_sites f, pos_core f, taken_core f).

(** The right-lobe and patient-level entries of the form. *)
Definition right_inputs (f : form)
  : Z * Q * Q * Q * Z * list (Z * Q) * Z * Z :=
  (age f, psa f, vol f, p_high f, perineural_inv f,
   right_sites f, pos_core_r f, taken_core_r f).

Definition left_worst_grade (f : form) : Z :=
  Z.max (Z.max (base_findings f) (mid_findings f)) (apex_findings f).

(** The columns both lobes' dictionaries fill from the same expression. *)
Definition shared_fields : list field :=
  [ AgeAtBiopsy; WorstGradeGroup; PsaDensity; PerineuralInvasion;
    PercentPatternHighGrade ].

(** More forms used as concrete inputs. *)

(** Thirty positive cores out of one core taken on the left. *)
Definition many_positive_form : form :=
  mkForm 60 7 40 22.5 1
         3 7.5 3 5 0 0 30 1
         5 45 4 45 3 20 5 8.

(** [default_form] with other entries on the right lobe. *)
Definition other_right_form : form :=
  mkForm 60 7 40 22.5 1
         3 7.5 3 5 0 0 3 6
         1 10 0 0 2 35 1 12.

(** [default_form] with other left entries whose largest grade is still 3. *)
Definition same_worst_left_form : form :=
  mkForm 60 7 40 22.5 1
         0 80 3 1 1 12.5 1 12
         5 45 4 45 3 20 5 8.

(** [default_form] with left grades 5, 0, 0. *)
Definition other_left_form : form :=
  mkForm 60 7 40 22.5 1
         5 7.5 0 5 0 0 3 6
         5 45 4 45 3 20 5 8.

(** The four core counts lie within the bounds of their number inputs. *)
Definition cores_in_bounds (f : form) : bool :=
  in_Z_range 0 30 (pos_core f) && in_Z_range 0 30 (taken_core f)
  && in_Z_range 0 30 (pos_core_r f) && in_Z_range 0 30 (taken_core_r f).

(** [(p / t) * 100] as the dictionary literals compute it from two ints. *)
Definition percent_positive (p t : Z) : Q :=
  float_mul (round_float (inject_Z p / inject_Z t)) 100.

(** The integers [lo], [lo + 1], ..., [lo + n - 1]. *)
Definition Z_range (lo : Z) (n : nat) : list Z :=
  map (fun i => lo + Z.of_nat i) (seq 0 n).

(** The computed percentage is within a relative error of 2^-52 of the
    exact one. *)
Definition percent_is_close (p t : Z) : bool :=
  Qle_bool (Qabs (percent_positive p t - 100 * inject_Z p / inject_Z t))
           (100 * inject_Z p / inject_Z t * (1 # 2 ^ 52)).

(** The computed percentage lies between 0 and 3000 and is at most 100
    exactly when [p] is at most [t]. *)
Definition percent_in_range (p t : Z) : bool :=
  Qle_bool 0 (percent_positive p t)
  && Qle_bool (percent_positive p t) 3000
  && Bool.eqb (Qle_bool (percent_positive p t) 100) (p <=? t).

(** [default_form] with 7 positive cores out of 25 on the left. *)
Definition seven_of_25_form : form :=
  mkForm 60 7 40 22.5 1
         3 7.5 3 5 0 0 7 25
         5 45 4 45 3 20 5 8.

(** [no_cores_form] the other way round: no cores taken on the right. *)
Definition no_cores_right_form : form :=
  mkForm 60 7 40 22.5 1
         3 7.5 3 5 0 0 3 6
         5 45 4 45 3 20 0 0.

(** * Properties *)

(** ** The form's default values *)

Example pt_data_default :
  pt_data default_form =
  Ok [ ("Age at Biopsy", VInt 60);
       ("Worst Gleason Grade Group", VInt 3);
       ("PSA density", VFloat (7 / 40));
       ("Perineural invasion", VInt 1);
       ("% positive cores", VFloat 50);
       ("% Gleason pattern 4/5", VFloat 22.5);
       ("Max % core involvement", VFloat 7.5);
       ("Base finding", VInt 3);
       ("Base % core involvement", VFloat 7.5);
       ("Mid % core involvement", VFloat 5);
       ("Apex % core involvement", VFloat 0) ].
Proof. reflexivity. Qed.

(** ** Maxima of columns *)

Lemma fold_left_Zmax_is_max (l : list Z) (a : Z) :
  is_max_Z (fold_left Z.max l a) (a :: l).
Proof.
  revert a. induction l as [| x l IH]; intro a; simpl.
  - split; [now left | constructor; [lia | constructor]].
  - destruct (IH (Z.max a x)) as [Hin Hall].
    inversion Hall as [| ? ? Hhd Htl]; subst.
    split.
    + destruct Hin as [Heq | Hin]; [| now right; right].
      rewrite <- Heq.
      destruct (Z.max_spec a x) as [[_ E] | [_ E]]; rewrite E.
      * right; now left.
      * now left.
    + constructor; [lia |]. constructor; [lia | assumption].
Qed.

Lemma Qmax_cases (a b : Q) : Qmax a b = a \/ Qmax a b = b.
Proof.
  unfold Qmax, GenericMinMax.gmax. destruct (a ?= b)%Q; auto.
Qed.

Lemma fold_left_Qmax_is_max (l : list Q) (a : Q) :
  is_max_Q (fold_left Qmax l a) (a :: l).
Proof.
  revert a. induction l as [| x l IH]; intro a; simpl.
  - split; [now left | constructor; [apply Qle_refl | constructor]].
  - destruct (IH (Qmax a x)) as [Hin Hall].
    inversion Hall as [| ? ? Hhd Htl]; subst.
    split.
    + destruct Hin as [Heq | Hin]; [| now right; right].
      rewrite <- Heq.
      destruct (Qmax_cases a x) as [E | E]; rewrite E.
      * now left.
      * right; now left.
    + constructor.
      * eapply Qle_trans; [apply (Q.le_max_l a x) | exact Hhd].
      * constructor; [| assumption].
        eapply Qle_trans; [apply (Q.le_max_r a x) | exact Hhd].
Qed.

Lemma is_max_Z_unique (l l' : list Z) (m m' : Z) :
  Permutation l l' -> is_max_Z m l -> is_max_Z m' l' -> m = m'.
Proof.
  intros P [Hin Hall] [Hin' Hall'].
  rewrite Forall_forall in Hall, Hall'.
  assert (m <= m') by (apply Hall'; eapply Permutation_in; eauto).
  assert (m' <= m)
    by (apply Hall; eapply Permutation_in; [apply Permutation_sym |]; eauto).
  lia.
Qed.

Lemma is_max_Q_unique (l l' : list Q) (m m' : Q) :
  Permutation l l' -> is_max_Q m l -> is_max_Q m' l' -> (m == m')%Q.
Proof.
  intros P [Hin Hall] [Hin' Hall'].
  rewrite Forall_forall in Hall, Hall'.
  apply Qle_antisym.
  - apply Hall'. eapply Permutation_in; eauto.
  - apply Hall. eapply Permutation_in; [apply Permutation_sym |]; eauto.
Qed.

(** ** The severity sort only reorders rows *)

Lemma insert_row_perm (x : row) (l : frame) :
  Permutation (insert_row x l) (x :: l).
Proof.
  induction l as [| y t IH]; simpl.
  - apply Permutation_refl.
  - destruct (precedes y x).
    + eapply perm_trans; [apply perm_skip, IH | apply perm_swap].
    + apply Permutation_refl.
Qed.

Lemma sort_values_perm (df : frame) : Permutation (sort_values df) df.
Proof.
  induction df as [| x t IH]; simpl.
  - constructor.
  - eapply perm_trans; [apply insert_row_perm | now apply perm_skip].
Qed.

Lemma Gleason_max_perm (df df' : frame) :
  Permutation (map Gleason df) (map Gleason df') ->
  Gleason_max df = Gleason_max df'.
Proof.
  unfold Gleason_max. intro P.
  destruct (map Gleason df) as [| g gs], (map Gleason df') as [| g' gs'].
  - reflexivity.
  - apply Permutation_nil in P. discriminate.
  - apply Permutation_sym, Permutation_nil in P. discriminate.
  - f_equal.
    eapply is_max_Z_unique; [exact P | apply fold_left_Zmax_is_max ..].
Qed.

Lemma core_involvement_max_perm (df df' : frame) :
  Permutation (map core_involvement df) (map core_involvement df') ->
  value_eqv (core_involvement_max df) (core_involvement_max df').
Proof.
  unfold core_involvement_max. intro P.
  destruct (map core_involvement df) as [| p ps],
           (map core_involvement df') as [| p' ps']; simpl.
  - exact I.
  - apply Permutation_nil in P. discriminate.
  - apply Permutation_sym, Permutation_nil in P. discriminate.
  - eapply is_max_Q_unique; [exact P | apply fold_left_Qmax_is_max ..].
Qed.

(** ** Division *)

Lemma truediv_ok (a b : Q) : ~ (b == 0)%Q -> truediv a b = Ok (a / b)%Q.
Proof.
  intro Hb. unfold truediv.
  destruct (Qeq_bool b 0) eqn:E; [| reflexivity].
  apply Qeq_bool_iff in E. contradiction.
Qed.

Lemma truediv_zero (a b : Q) : (b == 0)%Q -> truediv a b = Raise ZeroDivisionError.
Proof.
  intro Hb. unfold truediv. apply Qeq_bool_iff in Hb. now rewrite Hb.
Qed.

Lemma truediv_int_ok (a b : Z) :
  b <> 0 -> truediv_int a b = Ok (round_float (inject_Z a / inject_Z b)).
Proof.
  intro Hb. unfold truediv_int. apply Z.eqb_neq in Hb. now rewrite Hb.
Qed.

Lemma truediv_int_zero (a : Z) : truediv_int a 0 = Raise ZeroDivisionError.
Proof. reflexivity. Qed.

Lemma Qeq_zero_dec (q : Q) : {(q == 0)%Q} + {~ (q == 0)%Q}.
Proof. apply Qeq_dec. Qed.

(** ** What the two dictionary literals evaluate to *)

Lemma pt_data_ok (f : form) :
  ~ (vol f == 0)%Q -> taken_core f <> 0 ->
  pt_data f =
  Ok [ ("Age at Biopsy", VInt (age f));
       ("Worst Gleason Grade Group", Gleason_max (sort_g_p_inv f));
       ("PSA density", VFloat (psa f / vol f));
       ("Perineural invasion", VInt (perineural_inv f));
       ("% positive cores",
        VFloat (float_mul (round_float (inject_Z (pos_core f)
                                         / inject_Z (taken_core f))) 100));
       ("% Gleason pattern 4/5", VFloat (p_high f));
       ("Max % core involvement", core_involvement_max (sort_g_p_inv f));
       ("Base finding", VInt (base_findings f));
       ("Base % core involvement", VFloat (base_p_inv f));
       ("Mid % core involvement", VFloat (mid_p_inv f));
       ("Apex % core involvement", VFloat (apex_p_inv f)) ].
Proof.
  intros Hv Ht. unfold pt_data.
  rewrite (truediv_ok _ _ Hv), (truediv_int_ok _ _ Ht). reflexivity.
Qed.

Lemma pt_data_r_ok (f : form) :
  ~ (vol f == 0)%Q -> taken_core_r f <> 0 ->
  pt_data_r f =
  Ok [ ("Age at Biopsy", VInt (age f));
       ("Worst Gleason Grade Group", Gleason_max (sort_g_p_inv f));
       ("PSA density", VFloat (psa f / vol f));
       ("Perineural invasion", VInt (perineural_inv f));
       ("% positive cores",
        VFloat (float_mul (round_float (inject_Z (pos_core_r f)
                                         / inject_Z (taken_core_r f))) 100));
       ("% Gleason pattern 4/5", VFloat (p_high f));
       ("Max % core involvement", core_involvement_max (sort_g_p_inv_r f));
       ("Base finding", VInt (base_findings_r f));
       ("Base % core involvement", VFloat (base_p_inv_r f));
       ("Mid % core involvement", VFloat (mid_p_inv_r f));
       ("Apex % core involvement", VFloat (apex_p_inv_r f)) ].
Proof.
  intros Hv Ht. unfold pt_data_r.
  rewrite (truediv_ok _ _ Hv), (truediv_int_ok _ _ Ht). reflexivity.
Qed.

Lemma pt_data_no_volume (f : form) :
  (vol f == 0)%Q -> pt_data f = Raise ZeroDivisionError.
Proof. intro Hv. unfold pt_data. now rewrite (truediv_zero _ _ Hv). Qed.

Lemma pt_data_r_no_volume (f : form) :
  (vol f == 0)%Q -> pt_data_r f = Raise ZeroDivisionError.
Proof. intro Hv. unfold pt_data_r. now rewrite (truediv_zero _ _ Hv). Qed.

Lemma pt_data_no_cores (f : form) :
  taken_core f = 0 -> pt_data f = Raise ZeroDivisionError.
Proof.
  intro Ht. unfold pt_data. rewrite Ht.
  destruct (truediv (psa f) (vol f)) as [q | e] eqn:E; simpl.
  - reflexivity.
  - unfold truediv in E. destruct (Qeq_bool (vol f) 0); [| discriminate].
    now injection E as <-.
Qed.

Lemma pt_data_r_no_cores (f : form) :
  taken_core_r f = 0 -> pt_data_r f = Raise ZeroDivisionError.
Proof.
  intro Ht. unfold pt_data_r. rewrite Ht.
  destruct (truediv (psa f) (vol f)) as [q | e] eqn:E; simpl.
  - reflexivity.
  - unfold truediv in E. destruct (Qeq_bool (vol f) 0); [| discriminate].
    now injection E as <-.
Qed.

(** A derived vector exists exactly when neither divisor is zero. *)
Lemma pt_data_Ok_inv (f : form) (d : dict) :
  pt_data f = Ok d -> ~ (vol f == 0)%Q /\ taken_core f <> 0.
Proof.
  intro H. split.
  - intro Hv. rewrite (pt_data_no_volume _ Hv) in H. discriminate.
  - intro Ht. rewrite (pt_data_no_cores _ Ht) in H. discriminate.
Qed.

Lemma pt_data_r_Ok_inv (f : form) (d : dict) :
  pt_data_r f = Ok d -> ~ (vol f == 0)%Q /\ taken_core_r f <> 0.
Proof.
  intro H. split.
  - intro Hv. rewrite (pt_data_r_no_volume _ Hv) in H. discriminate.
  - intro Ht. rewrite (pt_data_r_no_cores _ Ht) in H. discriminate.
Qed.

Lemma pt_data_Raise_inv (f : form) (e : exn) :
  pt_data f = Raise e ->
  e = ZeroDivisionError /\ ((vol f == 0)%Q \/ taken_core f = 0).
Proof.
  intro H.
  destruct (Qeq_zero_dec (vol f)) as [Hv | Hv].
  - rewrite (pt_data_no_volume _ Hv) in H. split; [congruence | now left].
  - destruct (Z.eq_dec (taken_core f) 0) as [Ht | Ht].
    + rewrite (pt_data_no_cores _ Ht) in H. split; [congruence | now right].
    + rewrite (pt_data_ok _ Hv Ht) in H. discriminate.
Qed.

Lemma pt_data_r_Raise_inv (f : form) (e : exn) :
  pt_data_r f = Raise e ->
  e = ZeroDivisionError /\ ((vol f == 0)%Q \/ taken_core_r f = 0).
Proof.
  intro H.
  destruct (Qeq_zero_dec (vol f)) as [Hv | Hv].
  - rewrite (pt_data_r_no_volume _ Hv) in H. split; [congruence | now left].
  - destruct (Z.eq_dec (taken_core_r f) 0) as [Ht | Ht].
    + rewrite (pt_data_r_no_cores _ Ht) in H. split; [congruence | now right].
    + rewrite (pt_data_r_ok _ Hv Ht) in H. discriminate.
Qed.

(** Rewrites a derived vector [d] into its eleven entries. *)
Ltac derived H :=
  let Hv := fresh "Hvol" in
  let Ht := fresh "Htaken" in
  first
    [ destruct (pt_data_Ok_inv _ _ H) as [Hv Ht];
      rewrite (pt_data_ok _ Hv Ht) in H
    | destruct (pt_data_r_Ok_inv _ _ H) as [Hv Ht];
      rewrite (pt_data_r_ok _ Hv Ht) in H ];
  injection H as <-.

(** ** The columns of a lobe's frame *)

Lemma Gleason_column (f : form) : map Gleason (g_p_inv f) = map fst (left_sites f).
Proof. reflexivity. Qed.

Lemma Gleason_column_r (f : form) :
  map Gleason (g_p_inv_r f) = map fst (right_sites f).
Proof. reflexivity. Qed.

Lemma involvement_column (f : form) :
  map core_involvement (g_p_inv f) = map snd (left_sites f).
Proof. reflexivity. Qed.

Lemma involvement_column_r (f : form) :
  map core_involvement (g_p_inv_r f) = map snd (right_sites f).
Proof. reflexivity. Qed.

(** The severity sort has no effect on either column maximum. *)
Lemma Gleason_max_sort_values (df : frame) :
  Gleason_max (sort_values df) = Gleason_max df.
Proof. apply Gleason_max_perm, Permutation_map, sort_values_perm. Qed.

Lemma core_involvement_max_sort_values (df : frame) :
  value_eqv (core_involvement_max (sort_values df)) (core_involvement_max df).
Proof. apply core_involvement_max_perm, Permutation_map, sort_values_perm. Qed.

Lemma Gleason_max_left (f : form) :
  Gleason_max (sort_g_p_inv f) =
  VInt (Z.max (Z.max (base_findings f) (mid_findings f)) (apex_findings f)).
Proof. unfold sort_g_p_inv. now rewrite Gleason_max_sort_values. Qed.

(** The maximum of a three-row frame's involvement column, sorted or not, is
    one of the three involvements and bounds all of them. *)
Lemma core_involvement_max_three (df : frame) (a b c : Q) :
  map core_involvement df = [a; b; c] ->
  exists q, core_involvement_max (sort_values df) = VFloat q
            /\ is_max_Q q [a; b; c].
Proof.
  intro Hcol.
  assert (P : Permutation (map core_involvement (sort_values df)) [a; b; c])
    by (rewrite <- Hcol; apply Permutation_map, sort_values_perm).
  unfold core_involvement_max.
  destruct (map core_involvement (sort_values df)) as [| p ps].
  - apply Permutation_nil in P. discriminate.
  - exists (fold_left Qmax ps p). split; [reflexivity |].
    destruct (fold_left_Qmax_is_max ps p) as [Hin Hall]. split.
    + eapply Permutation_in; eauto.
    + rewrite Forall_forall in *. intros x Hx. apply Hall.
      eapply Permutation_in; [apply Permutation_sym |]; eauto.
Qed.

(** ** Derivation errors stop [full_app] before anything is drawn or scored *)

Lemma full_app_left_fails (py_str : Q -> string) (f : form) (e : exn)
      (t : list event) :
  pt_data f = Raise e -> full_app py_str true f t = (t, Raise e).
Proof. intro H. unfold full_app, bind, lift. now rewrite H. Qed.

Lemma full_app_right_fails (py_str : Q -> string) (f : form) (e : exn)
      (t : list event) :
  pt_data_r f = Raise e -> full_app py_str true f t = (t, Raise ZeroDivisionError).
Proof.
  intro H. unfold full_app, bind, lift.
  destruct (pt_data f) as [d | e'] eqn:E.
  - rewrite H. apply pt_data_r_Raise_inv in H. now destruct H as [-> _].
  - apply pt_data_Raise_inv in E. now destruct E as [-> _].
Qed.

(** ** Worst grade group *)

Lemma worst_grade_left (f : form) (d : dict) :
  pt_data f = Ok d ->
  feature WorstGradeGroup d =
  Some (VInt (Z.max (Z.max (base_findings f) (mid_findings f)) (apex_findings f))).
Proof. intro H. derived H. rewrite Gleason_max_left. reflexivity. Qed.

(** The right lobe's entry is computed from the left lobe's frame. *)
Lemma worst_grade_right (f : form) (d : dict) :
  pt_data_r f = Ok d ->
  feature WorstGradeGroup d =
  Some (VInt (Z.max (Z.max (base_findings f) (mid_findings f)) (apex_findings f))).
Proof. intro H. derived H. rewrite Gleason_max_left. reflexivity. Qed.

(** C1.  On the form's default values (left grades 3, 3, 0; right grades
    5, 4, 3) the right lobe's vector is derived and its worst grade group is
    3, the maximum of the left lobe's grades, while the maximum grade over
    the right lobe's three sites is 5: the right entry does not equal the
    right lobe's own maximum and depends on the left lobe's grades. *)
Theorem C1_right_worst_grade_reads_left_lobe :
  exists d,
    pt_data_r default_form = Ok d
    /\ feature WorstGradeGroup d = Some (VInt 3)
    /\ Z.max (Z.max (base_findings default_form) (mid_findings default_form))
             (apex_findings default_form) = 3
    /\ Z.max (Z.max (base_findings_r default_form) (mid_findings_r default_form))
             (apex_findings_r default_form) = 5.
Proof.
  eexists. split; [reflexivity |].
  split; [| split]; reflexivity.
Qed.

(** ** Maximum percent core involvement *)

(** C2, as stated, fails.  With two sites tied at grade 4 with involvements
    30 and 60 and a third site at grade 2 with involvement 90, the first row
    of the severity-sorted frame has involvement 60, but the derived
    maximum percent core involvement is 90. *)
Lemma C2_dominant_involvement_counterexample :
  exists d,
    pt_data tied_form = Ok d
    /\ feature MaxPercentCoreInvolvement d = Some (VFloat 90)
    /\ dominant_involvement (g_p_inv tied_form) = Some 60%Q
    /\ ~ (90 == 60)%Q.
Proof.
  eexists. split; [reflexivity |].
  split; [reflexivity |]. split; [reflexivity |].
  intro H. discriminate H.
Qed.

(** C2, amended.  For every lobe whose vector is derived, the maximum
    percent core involvement is the maximum of the involvement column over
    all three sites of that lobe: it is one of the three involvements and
    no involvement of the lobe exceeds it, whatever the grades are. *)
Theorem C2_max_involvement_is_column_max (f : form) :
  (forall d, pt_data f = Ok d ->
     exists q, feature MaxPercentCoreInvolvement d = Some (VFloat q)
               /\ is_max_Q q [base_p_inv f; mid_p_inv f; apex_p_inv f])
  /\ (forall d, pt_data_r f = Ok d ->
        exists q, feature MaxPercentCoreInvolvement d = Some (VFloat q)
                  /\ is_max_Q q [base_p_inv_r f; mid_p_inv_r f; apex_p_inv_r f]).
Proof.
  split; intros d H; derived H.
  - destruct (core_involvement_max_three (g_p_inv f) _ _ _ eq_refl)
      as (q & Hq & Hmax).
    exists q. unfold sort_g_p_inv. rewrite Hq. split; [reflexivity | exact Hmax].
  - destruct (core_involvement_max_three (g_p_inv_r f) _ _ _ eq_refl)
      as (q & Hq & Hmax).
    exists q. unfold sort_g_p_inv_r. rewrite Hq.
    split; [reflexivity | exact Hmax].
Qed.

Lemma C2_max_involvement_witness :
  exists d q,
    pt_data tied_form = Ok d
    /\ feature MaxPercentCoreInvolvement d = Some (VFloat q)
    /\ is_max_Q q [30; 60; 90]%Q.
Proof.
  destruct (proj1 (C2_max_involvement_is_column_max tied_form) _ eq_refl)
    as (q & Hq & Hmax).
  eexists. exists q. split; [reflexivity |]. split; [exact Hq | exact Hmax].
Defined.

(** ** PSA density *)



(** ** Positional fields *)

(** C5.  In every derived vector the base finding and the base, mid and
    apex percent core involvement are the lobe's raw base, mid and apex
    inputs themselves, whatever the three findings and involvements are. *)
Theorem C5_positional_fields_unchanged (f : form) :
  (forall d, pt_data f = Ok d ->
     feature BaseFinding d = Some (VInt (base_findings f))
     /\ feature BasePercentCoreInvolvement d = Some (VFloat (base_p_inv f))
     /\ feature MidPercentCoreInvolvement d = Some (VFloat (mid_p_inv f))
     /\ feature ApexPercentCoreInvolvement d = Some (VFloat (apex_p_inv f)))
  /\ (forall d, pt_data_r f = Ok d ->
        feature BaseFinding d = Some (VInt (base_findings_r f))
        /\ feature BasePercentCoreInvolvement d = Some (VFloat (base_p_inv_r f))
        /\ feature MidPercentCoreInvolvement d = Some (VFloat (mid_p_inv_r f))
        /\ feature ApexPercentCoreInvolvement d = Some (VFloat (apex_p_inv_r f))).
Proof.
  split; intros d H; derived H; repeat apply conj; reflexivity.
Qed.

Lemma C5_positional_fields_witness :
  exists d,
    pt_data_r default_form = Ok d
    /\ feature BaseFinding d = Some (VInt 5)
    /\ feature BasePercentCoreInvolvement d = Some (VFloat 45)
    /\ feature MidPercentCoreInvolvement d = Some (VFloat 45)
    /\ feature ApexPercentCoreInvolvement d = Some (VFloat 20).
Proof.
  eexists. split; [reflexivity |].
  apply (proj2 (C5_positional_fields_unchanged default_form)). reflexivity.
Defined.

(** ** Shape of the derived vector *)

(** C6.  Every derived vector, left or right, has exactly eleven entries
    whose keys, in insertion order, are the columns of the schema
    AgeAtBiopsy, WorstGradeGroup, PsaDensity, PerineuralInvasion,
    PercentPositiveCores, PercentPatternHighGrade,
    MaxPercentCoreInvolvement, BaseFinding, BasePercentCoreInvolvement,
    MidPercentCoreInvolvement, ApexPercentCoreInvolvement; these are the
    names of [features_list], the feature names handed to the explainer's
    plot, and no name occurs twice. *)
Theorem C6_eleven_fields_in_schema_order (f : form) :
  map column schema = features_list
  /\ List.length features_list = 11%nat
  /\ NoDup features_list
  /\ (forall d, pt_data f = Ok d ->
        keys d = map column schema /\ List.length d = 11%nat)
  /\ (forall d, pt_data_r f = Ok d ->
        keys d = map column schema /\ List.length d = 11%nat).
Proof.
  repeat apply conj; try reflexivity.
  - unfold features_list.
    repeat (constructor;
            [simpl; intro Hin;
             repeat (destruct Hin as [Hin | Hin]; [discriminate Hin |]);
             exact Hin |]).
    constructor.
  - intros d H. derived H. split; reflexivity.
  - intros d H. derived H. split; reflexivity.
Qed.

Lemma C6_eleven_fields_witness :
  exists d,
    pt_data default_form = Ok d
    /\ keys d = map column schema /\ List.length d = 11%nat.
Proof.
  pose proof (C6_eleven_fields_in_schema_order default_form)
    as (_ & _ & _ & Hl & _).
  eexists. split; [reflexivity |]. apply Hl. reflexivity.
Defined.

(** ** Diagram annotation *)

Lemma when_emit (b : bool) (e : event) (t : list event) :
  when b (emit e) t = (t ++ (if b then [e] else []), Ok tt).
Proof. destruct b; simpl; [reflexivity | unfold ret; now rewrite app_nil_r]. Qed.

Lemma when_emit_bind {A : Type} (b : bool) (e : event) (k : M A)
      (t : list event) :
  (when b (emit e) ;;; k) t = k (t ++ (if b then [e] else [])).
Proof. unfold bind. now rewrite when_emit. Qed.

Lemma five_whens_bind {A : Type} (g : Z) (e1 e2 e3 e4 e5 : event) (k : M A)
      (t : list event) :
  (when (g =? 1) (emit e1) ;;;
   when (g =? 2) (emit e2) ;;;
   when (g =? 3) (emit e3) ;;;
   when (g =? 4) (emit e4) ;;;
   when (g =? 5) (emit e5) ;;; k) t
  = k (t ++ site_ifs g e1 e2 e3 e4 e5).
Proof.
  rewrite !when_emit_bind. unfold site_ifs. now rewrite <- !app_assoc.
Qed.

Lemma five_whens (g : Z) (e1 e2 e3 e4 e5 : event) (t : list event) :
  (when (g =? 1) (emit e1) ;;;
   when (g =? 2) (emit e2) ;;;
   when (g =? 3) (emit e3) ;;;
   when (g =? 4) (emit e4) ;;;
   when (g =? 5) (emit e5)) t
  = (t ++ site_ifs g e1 e2 e3 e4 e5, Ok tt).
Proof.
  rewrite !when_emit_bind, when_emit. unfold site_ifs.
  now rewrite <- !app_assoc.
Qed.

(** The five statements of a site select what the table selects. *)
Lemma site_ifs_table (g : Z) (pos : position) (sd : side) :
  site_ifs g
    (paste (asset pos 1) (orientation pos sd) (placement pos sd))
    (paste (asset pos 2) (orientation pos sd) (placement pos sd))
    (paste (asset pos 3) (orientation pos sd) (placement pos sd))
    (paste (asset pos 4) (orientation pos sd) (placement pos sd))
    (paste (asset pos 5) (orientation pos sd) (placement pos sd))
  = overlay_table g pos sd.
Proof.
  unfold site_ifs, overlay_table.
  destruct (Z.eq_dec g 1) as [-> | N1]; [reflexivity |].
  destruct (Z.eq_dec g 2) as [-> | N2]; [reflexivity |].
  destruct (Z.eq_dec g 3) as [-> | N3]; [reflexivity |].
  destruct (Z.eq_dec g 4) as [-> | N4]; [reflexivity |].
  destruct (Z.eq_dec g 5) as [-> | N5]; [reflexivity |].
  apply Z.eqb_neq in N1, N2, N3, N4, N5.
  rewrite N1, N2, N3, N4, N5. simpl.
  destruct (1 <=? g) eqn:L1; [| reflexivity].
  destruct (g <=? 5) eqn:L5; [| reflexivity].
  apply Z.leb_le in L1, L5. apply Z.eqb_neq in N1, N2, N3, N4, N5. lia.
Qed.

(** Replaces the five statements on grade [g] by the table's entry. *)
Ltac from_table g pos sd :=
  match goal with
  | |- context [site_ifs g ?e1 ?e2 ?e3 ?e4 ?e5] =>
      replace (site_ifs g e1 e2 e3 e4 e5) with (overlay_table g pos sd)
        by (symmetry; apply (site_ifs_table g pos sd))
  end.

Lemma paste_overlays_table (f : form) (t : list event) :
  paste_overlays f t =
  (t ++ flat_map (fun s => overlay_table (site_grade f (fst s) (snd s))
                                         (fst s) (snd s)) sites,
   Ok tt).
Proof.
  unfold paste_overlays.
  rewrite !five_whens_bind, five_whens.
  from_table (base_findings f) Base Left.
  from_table (mid_findings f) Mid Left.
  from_table (apex_findings f) Apex Left.
  from_table (base_findings_r f) Base Right.
  from_table (mid_findings_r f) Mid Right.
  from_table (apex_findings_r f) Apex Right.
  simpl flat_map. rewrite app_nil_r, <- !app_assoc. reflexivity.
Qed.

Lemma is_grade_cases (g : Z) :
  is_grade g = true -> g = 0 \/ g = 1 \/ g = 2 \/ g = 3 \/ g = 4 \/ g = 5.
Proof.
  unfold is_grade, in_Z_range. intro H.
  apply andb_true_iff in H. destruct H as [H0 H5].
  apply Z.leb_le in H0, H5. lia.
Qed.

Lemma site_label_ok (py_str : Q -> string) (g : Z) (p : Q) :
  is_grade g = true -> site_label py_str g p = Ok (label_text py_str g p).
Proof.
  intro H. apply is_grade_cases in H.
  destruct H as [-> | [-> | [-> | [-> | [-> | ->]]]]]; reflexivity.
Qed.

Lemma asset_injective (pos : position) (g g' : Z) :
  1 <= g <= 5 -> 1 <= g' <= 5 -> asset pos g = asset pos g' -> g = g'.
Proof.
  intros Hg Hg' E.
  assert (Cg : g = 1 \/ g = 2 \/ g = 3 \/ g = 4 \/ g = 5) by lia.
  assert (Cg' : g' = 1 \/ g' = 2 \/ g' = 3 \/ g' = 4 \/ g' = 5) by lia.
  destruct Cg as [-> | [-> | [-> | [-> | ->]]]];
    destruct Cg' as [-> | [-> | [-> | [-> | ->]]]];
    destruct pos; first [reflexivity | discriminate E].
Qed.

(** C8.  When both vectors are derived and the six grades are among 0..5,
    [full_app] pastes, site by site in the order left base, mid, apex then
    right base, mid, apex, what the table selects from the site's grade:
    nothing for grade 0 and, for a grade from 1 to 5, the single overlay
    whose image is fixed by grade and position (a different image for each
    grade), whose orientation is fixed by position and side (left base
    flipped, right base mirrored and flipped, right apex mirrored, the
    others untouched) and whose place is fixed by position and side.  It
    then draws for each site one label made of the finding's name, a line
    break, [% core inv: ] and the site's involvement as text. *)
Theorem C8_diagram_annotation (py_str : Q -> string) (f : form)
        (t : list event) (d d_r : dict) :
  pt_data f = Ok d -> pt_data_r f = Ok d_r ->
  (forall pos sd, is_grade (site_grade f pos sd) = true) ->
  full_app py_str true f t =
    (t ++ flat_map (site_overlay f) sites
       ++ map (site_text py_str f) sites
       ++ [ shap_values d; force_plot d features_list;
            shap_values d_r; force_plot d_r features_list ],
     Ok tt)
  /\ (forall pos sd, overlay_table 0 pos sd = [])
  /\ (forall g pos sd, 1 <= g <= 5 ->
        overlay_table g pos sd =
        [paste (asset pos g) (orientation pos sd) (placement pos sd)])
  /\ (forall g g' pos, 1 <= g <= 5 -> 1 <= g' <= 5 ->
        asset pos g = asset pos g' -> g = g')
  /\ orientation Base Left = [flip]
  /\ orientation Base Right = [mirror; flip]
  /\ orientation Apex Right = [mirror]
  /\ orientation Apex Left = []
  /\ orientation Mid Left = []
  /\ orientation Mid Right = [].
Proof.
  intros Hl Hr Hg. repeat apply conj; try reflexivity.
  - unfold full_app, bind, lift. rewrite Hl, Hr.
    rewrite (site_label_ok _ _ _ (Hg Base Left)).
    rewrite (site_label_ok _ _ _ (Hg Mid Left)).
    rewrite (site_label_ok _ _ _ (Hg Apex Left)).
    rewrite (site_label_ok _ _ _ (Hg Base Right)).
    rewrite (site_label_ok _ _ _ (Hg Mid Right)).
    rewrite (site_label_ok _ _ _ (Hg Apex Right)).
    rewrite paste_overlays_table. unfold emit.
    rewrite <- !app_assoc. reflexivity.
  - intros g pos sd [H1 H5]. unfold overlay_table.
    apply Z.leb_le in H1, H5. now rewrite H1, H5.
  - intros g g' pos. apply asset_injective.
Qed.

Lemma C8_diagram_annotation_witness :
  firstn 5 (fst (full_app (fun _ => "7.5") true default_form [])) =
    [ paste "Images/Corner 3.png" [flip] (145, 958);
      paste "Images/Mid 3.png" [] (145, 606);
      paste "Images/Corner 5.png" [mirror; flip] (1104, 958);
      paste "Images/Mid 4.png" [] (1542, 606);
      paste "Images/Corner 3.png" [mirror] (1104, 130) ].
Proof.
  pose proof (C8_diagram_annotation (fun _ => "7.5") default_form [] _ _
                eq_refl eq_refl) as H.
  destruct H as [H _].
  - intros [] []; reflexivity.
  - rewrite H. reflexivity.
Defined.

(** ** Permuting the sites of a lobe *)

Lemma value_eqv_refl (v : value) : value_eqv v v.
Proof. destruct v; simpl; [reflexivity | apply Qeq_refl | exact I]. Qed.

Lemma dict_get_cons (k k' : string) (v : value) (d : dict) :
  dict_get k ((k', v) :: d) = if String.eqb k k' then Some v else dict_get k d.
Proof. reflexivity. Qed.

Lemma Gleason_max_sites (f f' : form) :
  Permutation (left_sites f) (left_sites f') ->
  Gleason_max (sort_g_p_inv f) = Gleason_max (sort_g_p_inv f').
Proof.
  intro P. unfold sort_g_p_inv. rewrite !Gleason_max_sort_values.
  apply Gleason_max_perm. rewrite !Gleason_column. now apply Permutation_map.
Qed.

Lemma core_involvement_max_sites (f f' : form) :
  Permutation (left_sites f) (left_sites f') ->
  value_eqv (core_involvement_max (sort_g_p_inv f))
            (core_involvement_max (sort_g_p_inv f')).
Proof.
  intro P. apply core_involvement_max_perm.
  eapply perm_trans; [apply Permutation_map, sort_values_perm |].
  eapply perm_trans;
    [| apply Permutation_sym, Permutation_map, sort_values_perm].
  rewrite !involvement_column. now apply Permutation_map.
Qed.

Lemma core_involvement_max_sites_r (f f' : form) :
  Permutation (right_sites f) (right_sites f') ->
  value_eqv (core_involvement_max (sort_g_p_inv_r f))
            (core_involvement_max (sort_g_p_inv_r f')).
Proof.
  intro P. apply core_involvement_max_perm.
  eapply perm_trans; [apply Permutation_map, sort_values_perm |].
  eapply perm_trans;
    [| apply Permutation_sym, Permutation_map, sort_values_perm].
  rewrite !involvement_column_r. now apply Permutation_map.
Qed.

(** Splits a lookup of an unknown key [k] entry by entry. *)
Ltac by_key k Hpos :=
  rewrite !dict_get_cons;
  repeat match goal with
         | |- context [String.eqb k ?s] =>
             let E := fresh "E" in
             destruct (String.eqb k s) eqn:E;
             [ try (apply String.eqb_eq in E; exfalso; apply Hpos;
                    rewrite E; simpl; tauto)
             | clear E ]
         end.

Lemma ranked_features (f : form) (d : dict) :
  pt_data f = Ok d ->
  feature WorstGradeGroup d = Some (Gleason_max (sort_g_p_inv f))
  /\ feature MaxPercentCoreInvolvement d =
     Some (core_involvement_max (sort_g_p_inv f)).
Proof. intro H. derived H. split; reflexivity. Qed.

Lemma ranked_features_r (f : form) (d : dict) :
  pt_data_r f = Ok d ->
  feature WorstGradeGroup d = Some (Gleason_max (sort_g_p_inv f))
  /\ feature MaxPercentCoreInvolvement d =
     Some (core_involvement_max (sort_g_p_inv_r f)).
Proof. intro H. derived H. split; reflexivity. Qed.

Lemma patient_fields_inv (f f' : form) :
  patient_fields f = patient_fields f' ->
  age f = age f' /\ psa f = psa f' /\ vol f = vol f' /\ p_high f = p_high f'
  /\ perineural_inv f = perineural_inv f'
  /\ pos_core f = pos_core f' /\ taken_core f = taken_core f'
  /\ pos_core_r f = pos_core_r f' /\ taken_core_r f = taken_core_r f'.
Proof.
  unfold patient_fields. intro H. injection H as -> -> -> -> -> -> -> -> ->.
  repeat split.
Qed.

(** C10.  Take two forms that differ only by the order in which each lobe's
    three (grade, involvement) pairs are assigned to base, mid and apex.
    Whenever a lobe's vector is derived from one it is derived from the
    other, with the same worst grade group, the same maximum percent core
    involvement and the same value under every key other than the base
    finding and the three per-site involvements.  Both ranked entries are
    column maxima: sorting the frame by severity changes neither. *)
Theorem C10_column_maxima_permutation_invariant (f f' : form) :
  Permutation (left_sites f) (left_sites f') ->
  Permutation (right_sites f) (right_sites f') ->
  patient_fields f = patient_fields f' ->
  (forall d, pt_data f = Ok d ->
     exists d',
       pt_data f' = Ok d'
       /\ opt_value_eqv (feature WorstGradeGroup d) (feature WorstGradeGroup d')
       /\ opt_value_eqv (feature MaxPercentCoreInvolvement d)
                        (feature MaxPercentCoreInvolvement d')
       /\ forall k, ~ In k positional_keys ->
                    opt_value_eqv (dict_get k d) (dict_get k d'))
  /\ (forall d, pt_data_r f = Ok d ->
        exists d',
          pt_data_r f' = Ok d'
          /\ opt_value_eqv (feature WorstGradeGroup d)
                           (feature WorstGradeGroup d')
          /\ opt_value_eqv (feature MaxPercentCoreInvolvement d)
                           (feature MaxPercentCoreInvolvement d')
          /\ forall k, ~ In k positional_keys ->
                       opt_value_eqv (dict_get k d) (dict_get k d'))
  /\ Gleason_max (sort_g_p_inv f) = Gleason_max (g_p_inv f)
  /\ value_eqv (core_involvement_max (sort_g_p_inv f))
               (core_involvement_max (g_p_inv f))
  /\ value_eqv (core_involvement_max (sort_g_p_inv_r f))
               (core_involvement_max (g_p_inv_r f)).
Proof.
  intros Pl Pr Hpat.
  destruct (patient_fields_inv _ _ Hpat)
    as (Ea & Ep & Ev & Eh & En & Epc & Etc & Epr & Etr).
  pose proof (Gleason_max_sites _ _ Pl) as Hworst.
  pose proof (core_involvement_max_sites _ _ Pl) as Hmax.
  pose proof (core_involvement_max_sites_r _ _ Pr) as Hmax_r.
  repeat apply conj.
  - intros d H. destruct (pt_data_Ok_inv _ _ H) as [Hv Ht].
    assert (Hv' : ~ (vol f' == 0)%Q) by now rewrite <- Ev.
    assert (Ht' : taken_core f' <> 0) by now rewrite <- Etc.
    eexists. split; [apply (pt_data_ok f' Hv' Ht') |].
    destruct (ranked_features _ _ H) as [-> ->].
    destruct (ranked_features _ _ (pt_data_ok f' Hv' Ht')) as [-> ->].
    split; [simpl; rewrite Hworst; apply value_eqv_refl |].
    split; [exact Hmax |].
    intros k Hpos. derived H.
    rewrite <- Ea, <- Ep, <- Ev, <- Eh, <- En, <- Epc, <- Etc, <- Hworst.
    by_key k Hpos; cbn [opt_value_eqv];
      first [apply value_eqv_refl | exact Hmax | exact I].
  - intros d H. destruct (pt_data_r_Ok_inv _ _ H) as [Hv Ht].
    assert (Hv' : ~ (vol f' == 0)%Q) by now rewrite <- Ev.
    assert (Ht' : taken_core_r f' <> 0) by now rewrite <- Etr.
    eexists. split; [apply (pt_data_r_ok f' Hv' Ht') |].
    destruct (ranked_features_r _ _ H) as [-> ->].
    destruct (ranked_features_r _ _ (pt_data_r_ok f' Hv' Ht')) as [-> ->].
    split; [simpl; rewrite Hworst; apply value_eqv_refl |].
    split; [exact Hmax_r |].
    intros k Hpos. derived H.
    rewrite <- Ea, <- Ep, <- Ev, <- Eh, <- En, <- Epr, <- Etr, <- Hworst.
    by_key k Hpos; cbn [opt_value_eqv];
      first [apply value_eqv_refl | exact Hmax_r | exact I].
  - apply Gleason_max_sort_values.
  - apply core_involvement_max_sort_values.
  - apply core_involvement_max_sort_values.
Qed.

Lemma C10_column_maxima_witness :
  exists d d',
    pt_data_r default_form = Ok d
    /\ pt_data_r permuted_form = Ok d'
    /\ opt_value_eqv (feature WorstGradeGroup d) (feature WorstGradeGroup d')
    /\ opt_value_eqv (feature MaxPercentCoreInvolvement d)
                     (feature MaxPercentCoreInvolvement d').
Proof.
  assert (Pl : Permutation (left_sites default_form) (left_sites permuted_form)).
  { unfold left_sites. simpl.
    eapply perm_trans; [apply perm_skip, perm_swap |].
    eapply perm_trans; [apply perm_swap |]. apply Permutation_refl. }
  assert (Pr : Permutation (right_sites default_form)
                           (right_sites permuted_form)).
  { unfold right_sites. simpl.
    eapply perm_trans; [apply perm_swap |].
    eapply perm_trans; [apply perm_skip, perm_swap |]. apply Permutation_refl. }
  destruct (C10_column_maxima_permutation_invariant
              default_form permuted_form Pl Pr eq_refl)
    as (_ & Hr & _).
  destruct (Hr _ eq_refl) as (d' & Hd' & Hw & Hm & _).
  eexists. exists d'. split; [reflexivity |]. repeat split; assumption.
Defined.

(** * Further properties of [full_app] *)

(** ** Dictionary lookups behind the select boxes *)

Lemma getitem_listed (d : list (Z * string)) (k : Z) :
  In k (options d) -> exists s, getitem d k = Ok s /\ In (k, s) d.
Proof.
  induction d as [| [k' v] d IH]; simpl; [intros [] |].
  intros [E | Hin].
  - subst k'. rewrite Z.eqb_refl. exists v. split; [reflexivity | now left].
  - destruct (k =? k') eqn:Ek.
    + apply Z.eqb_eq in Ek. subst k'. exists v. split; [reflexivity | now left].
    + destruct (IH Hin) as (s & Hs & Hd). exists s. split; [exact Hs | now right].
Qed.

Lemma getitem_unlisted (d : list (Z * string)) (k : Z) :
  ~ In k (options d) -> getitem d k = Raise KeyError.
Proof.
  induction d as [| [k' v] d IH]; simpl; [reflexivity |].
  intro Hn. destruct (k =? k') eqn:Ek.
  - apply Z.eqb_eq in Ek. exfalso. apply Hn. left. now symmetry.
  - apply IH. intro Hin. apply Hn. now right.
Qed.

Lemma is_grade_listed (g : Z) : is_grade g = true <-> In g (options G_CHOICES).
Proof.
  split.
  - intro H. apply is_grade_cases in H. simpl. lia.
  - simpl. intros [<- | [<- | [<- | [<- | [<- | [<- | []]]]]]]; reflexivity.
Qed.

Lemma is_grade_unlisted (g : Z) :
  is_grade g = false -> ~ In g (options G_CHOICES).
Proof.
  intros H Hin. apply is_grade_listed in Hin. congruence.
Qed.

Lemma site_label_bad (py_str : Q -> string) (g : Z) (p : Q) :
  is_grade g = false -> site_label py_str g p = Raise KeyError.
Proof.
  intro H. unfold site_label.
  now rewrite (getitem_unlisted _ _ (is_grade_unlisted _ H)).
Qed.

(** X1.  The grade select boxes offer 0 to 5, the keys of [G_CHOICES].
    [format_func_gleason] names every offered option, raises [KeyError] on
    anything else, and gives different options different names. *)
Theorem X1_format_func_gleason (g : Z) :
  options G_CHOICES = [0; 1; 2; 3; 4; 5]
  /\ (In g (options G_CHOICES) -> exists s, format_func_gleason g = Ok s)
  /\ (~ In g (options G_CHOICES) -> format_func_gleason g = Raise KeyError)
  /\ (forall g' s, format_func_gleason g = Ok s ->
                   format_func_gleason g' = Ok s -> g = g').
Proof.
  split; [reflexivity |]. split; [| split].
  - intro H. destruct (getitem_listed _ _ H) as (s & Hs & _). now exists s.
  - apply getitem_unlisted.
  - intros g' s H H'.
    assert (L : forall x t, format_func_gleason x = Ok t -> is_grade x = true).
    { intros x t Hx. destruct (is_grade x) eqn:E; [reflexivity |].
      unfold format_func_gleason in Hx.
      rewrite (getitem_unlisted _ _ (is_grade_unlisted _ E)) in Hx.
      discriminate. }
    pose proof (is_grade_cases _ (L _ _ H)) as C.
    pose proof (is_grade_cases _ (L _ _ H')) as C'.
    destruct C as [-> | [-> | [-> | [-> | [-> | ->]]]]];
      destruct C' as [-> | [-> | [-> | [-> | [-> | ->]]]]];
      first [reflexivity | exfalso; vm_compute in H, H'; congruence].
Qed.

Lemma X1_format_func_gleason_witness :
  (exists s, format_func_gleason 4 = Ok s)
  /\ format_func_gleason 6 = Raise KeyError.
Proof.
  pose proof (X1_format_func_gleason 4) as (_ & H4 & _).
  pose proof (X1_format_func_gleason 6) as (_ & _ & H6 & _).
  split.
  - apply H4. simpl. do 4 right. left. reflexivity.
  - apply H6. simpl. intros [H | [H | [H | [H | [H | [H | []]]]]]];
      discriminate H.
Defined.

(** ** How a run of [full_app] ends *)

Lemma full_app_ok (py_str : Q -> string) (f : form) (t : list event)
      (d d_r : dict) :
  pt_data f = Ok d -> pt_data_r f = Ok d_r ->
  (forall pos sd, is_grade (site_grade f pos sd) = true) ->
  full_app py_str true f t =
    (t ++ flat_map (site_overlay f) sites
       ++ map (site_text py_str f) sites
       ++ [ shap_values d; force_plot d features_list;
            shap_values d_r; force_plot d_r features_list ],
     Ok tt).
Proof.
  intros Hl Hr Hg. unfold full_app, bind, lift. rewrite Hl, Hr.
  rewrite (site_label_ok _ _ _ (Hg Base Left)).
  rewrite (site_label_ok _ _ _ (Hg Mid Left)).
  rewrite (site_label_ok _ _ _ (Hg Apex Left)).
  rewrite (site_label_ok _ _ _ (Hg Base Right)).
  rewrite (site_label_ok _ _ _ (Hg Mid Right)).
  rewrite (site_label_ok _ _ _ (Hg Apex Right)).
  rewrite paste_overlays_table. unfold emit.
  rewrite <- !app_assoc. reflexivity.
Qed.

Lemma all_grades_listed_true (f : form) :
  all_grades_listed f = true <->
  forall pos sd, is_grade (site_grade f pos sd) = true.
Proof.
  unfold all_grades_listed, sites. simpl. rewrite !andb_true_iff. split.
  - intros (H1 & H2 & H3 & H4 & H5 & H6 & _) [] []; assumption.
  - intro H.
    repeat split;
      [ apply (H Base Left) | apply (H Mid Left) | apply (H Apex Left)
      | apply (H Base Right) | apply (H Mid Right) | apply (H Apex Right) ].
Qed.

Lemma full_app_unlisted_grade (py_str : Q -> string) (f : form)
      (t : list event) (d d_r : dict) :
  pt_data f = Ok d -> pt_data_r f = Ok d_r ->
  all_grades_listed f = false ->
  full_app py_str true f t = (t, Raise KeyError).
Proof.
  intros Hl Hr Hg. unfold full_app, bind, lift. rewrite Hl, Hr.
  destruct (is_grade (base_findings f)) eqn:G1;
    [rewrite (site_label_ok _ _ _ G1) | now rewrite (site_label_bad _ _ _ G1)].
  destruct (is_grade (mid_findings f)) eqn:G2;
    [rewrite (site_label_ok _ _ _ G2) | now rewrite (site_label_bad _ _ _ G2)].
  destruct (is_grade (apex_findings f)) eqn:G3;
    [rewrite (site_label_ok _ _ _ G3) | now rewrite (site_label_bad _ _ _ G3)].
  destruct (is_grade (base_findings_r f)) eqn:G4;
    [rewrite (site_label_ok _ _ _ G4) | now rewrite (site_label_bad _ _ _ G4)].
  destruct (is_grade (mid_findings_r f)) eqn:G5;
    [rewrite (site_label_ok _ _ _ G5) | now rewrite (site_label_bad _ _ _ G5)].
  destruct (is_grade (apex_findings_r f)) eqn:G6;
    [rewrite (site_label_ok _ _ _ G6) | now rewrite (site_label_bad _ _ _ G6)].
  exfalso. unfold all_grades_listed, sites in Hg. simpl in Hg.
  rewrite G1, G2, G3, G4, G5, G6 in Hg. discriminate.
Qed.

(** The three ways a submitted run can end. *)
Lemma full_app_cases (py_str : Q -> string) (f : form) (t : list event) :
  (((vol f == 0)%Q \/ taken_core f = 0 \/ taken_core_r f = 0)
   /\ full_app py_str true f t = (t, Raise ZeroDivisionError))
  \/ (~ (vol f == 0)%Q /\ taken_core f <> 0 /\ taken_core_r f <> 0
      /\ all_grades_listed f = false
      /\ full_app py_str true f t = (t, Raise KeyError))
  \/ (~ (vol f == 0)%Q /\ taken_core f <> 0 /\ taken_core_r f <> 0
      /\ all_grades_listed f = true
      /\ exists d d_r,
           pt_data f = Ok d /\ pt_data_r f = Ok d_r
           /\ full_app py_str true f t =
              (t ++ flat_map (site_overlay f) sites
                 ++ map (site_text py_str f) sites
                 ++ [ shap_values d; force_plot d features_list;
                      shap_values d_r; force_plot d_r features_list ],
               Ok tt)).
Proof.
  destruct (Qeq_zero_dec (vol f)) as [Hv | Hv].
  { left. split; [now left |].
    apply full_app_left_fails. now apply pt_data_no_volume. }
  destruct (Z.eq_dec (taken_core f) 0) as [Ht | Ht].
  { left. split; [now right; left |].
    apply full_app_left_fails. now apply pt_data_no_cores. }
  destruct (Z.eq_dec (taken_core_r f) 0) as [Htr | Htr].
  { left. split; [now right; right |].
    eapply full_app_right_fails. now apply pt_data_r_no_cores. }
  right. destruct (all_grades_listed f) eqn:G.
  - right. repeat (split; [assumption || reflexivity |]).
    do 2 eexists. split; [now apply pt_data_ok |].
    split; [now apply pt_data_r_ok |].
    apply full_app_ok;
      [now apply pt_data_ok | now apply pt_data_r_ok
       | now apply all_grades_listed_true].
  - left. repeat (split; [assumption || reflexivity |]).
    eapply full_app_unlisted_grade;
      [now apply pt_data_ok | now apply pt_data_r_ok | assumption].
Qed.

(** Splits a conjunction of boolean tests in the context. *)
Ltac split_andb :=
  repeat match goal with
         | H : _ && _ = true |- _ =>
             apply andb_true_iff in H; destruct H
         end.

Lemma in_domain_grades (f : form) :
  in_domain f = true -> all_grades_listed f = true.
Proof.
  unfold in_domain. intro H. split_andb.
  unfold all_grades_listed, sites. simpl.
  repeat match goal with
         | H : is_grade _ = true |- _ => rewrite H; clear H
         end.
  reflexivity.
Qed.

(** ** Percent positive cores *)

Lemma Z_range_forallb (P : Z -> bool) (lo : Z) (n : nat) (z : Z) :
  forallb P (Z_range lo n) = true -> lo <= z < lo + Z.of_nat n -> P z = true.
Proof.
  intros H Hz. rewrite forallb_forall in H. apply H.
  unfold Z_range. apply in_map_iff. exists (Z.to_nat (z - lo)).
  split; [lia |]. apply in_seq. lia.
Qed.

(** Every pair of counts the widgets can return, checked one by one. *)
Lemma percent_positive_checked :
  forallb (fun p => forallb (fun t => percent_is_close p t
                                      && percent_in_range p t)
                            (Z_range 1 30))
          (Z_range 0 31) = true.
Proof. vm_compute. reflexivity. Qed.

Lemma percent_positive_facts (p t : Z) :
  0 <= p <= 30 -> 1 <= t <= 30 ->
  percent_is_close p t = true /\ percent_in_range p t = true.
Proof.
  intros Hp Ht. apply andb_true_iff.
  apply (Z_range_forallb
           (fun t => percent_is_close p t && percent_in_range p t) 1 30);
    [| lia].
  apply (Z_range_forallb
           (fun p => forallb (fun t => percent_is_close p t
                                       && percent_in_range p t)
                             (Z_range 1 30)) 0 31);
    [exact percent_positive_checked | lia].
Qed.

Lemma percent_positive_close (p t : Z) :
  0 <= p <= 30 -> 1 <= t <= 30 ->
  (Qabs (percent_positive p t - 100 * inject_Z p / inject_Z t)
   <= 100 * inject_Z p / inject_Z t * (1 # 2 ^ 52))%Q.
Proof.
  intros Hp Ht. destruct (percent_positive_facts p t Hp Ht) as [H _].
  now apply Qle_bool_iff.
Qed.

Lemma cores_in_bounds_inv (f : form) :
  cores_in_bounds f = true ->
  0 <= pos_core f <= 30 /\ 0 <= taken_core f <= 30
  /\ 0 <= pos_core_r f <= 30 /\ 0 <= taken_core_r f <= 30.
Proof.
  unfold cores_in_bounds, in_Z_range. rewrite !andb_true_iff, !Z.leb_le. tauto.
Qed.

(** C3, as stated, fails.  With 7 positive cores out of 25 taken, counts
    the widgets accept, the left vector is derived and its percent
    positive cores is 28 + 2^-48, the float 28.000000000000004, and not
    100 times 7 over 25, which is 28. *)
Lemma C3_seven_of_25_counterexample :
  in_domain seven_of_25_form = true
  /\ 0 < taken_core seven_of_25_form
  /\ exists d,
       pt_data seven_of_25_form = Ok d
       /\ feature PercentPositiveCores d =
          Some (VFloat (7881299347898369 # 281474976710656))
       /\ ~ (7881299347898369 # 281474976710656
             == 100 * inject_Z (pos_core seven_of_25_form)
                / inject_Z (taken_core seven_of_25_form))%Q.
Proof.
  split; [reflexivity |]. split; [reflexivity |].
  eexists. split; [reflexivity |]. split; [vm_compute; reflexivity |].
  intro H. vm_compute in H. discriminate H.
Qed.

(** C3, amended.  Take a form whose core counts are within the bounds of
    their number inputs.  For a lobe with more than zero cores taken whose
    vector is derived, percent positive cores is the float product
    (positive cores / cores taken) * 100: the quotient rounded to a float,
    times 100, rounded again.  It is within a relative error of 2^-52 of
    100 times positive cores over cores taken, without having to equal it,
    and the vector is derived whenever the volume is also non-zero.  When
    either lobe has zero cores taken the derivation raises
    [ZeroDivisionError] and [full_app] stops there: no event is added to
    the trace, so the explainer is not called. *)
Theorem C3_percent_positive_cores (py_str : Q -> string) (f : form) :
  cores_in_bounds f = true ->
  (forall d, 0 < taken_core f -> pt_data f = Ok d ->
     feature PercentPositiveCores d =
       Some (VFloat (percent_positive (pos_core f) (taken_core f)))
     /\ (Qabs (percent_positive (pos_core f) (taken_core f)
               - 100 * inject_Z (pos_core f) / inject_Z (taken_core f))
         <= 100 * inject_Z (pos_core f) / inject_Z (taken_core f)
            * (1 # 2 ^ 52))%Q)
  /\ (forall d, 0 < taken_core_r f -> pt_data_r f = Ok d ->
        feature PercentPositiveCores d =
          Some (VFloat (percent_positive (pos_core_r f) (taken_core_r f)))
        /\ (Qabs (percent_positive (pos_core_r f) (taken_core_r f)
                  - 100 * inject_Z (pos_core_r f) / inject_Z (taken_core_r f))
            <= 100 * inject_Z (pos_core_r f) / inject_Z (taken_core_r f)
               * (1 # 2 ^ 52))%Q)
  /\ (~ (vol f == 0)%Q -> 0 < taken_core f -> exists d, pt_data f = Ok d)
  /\ (~ (vol f == 0)%Q -> 0 < taken_core_r f -> exists d, pt_data_r f = Ok d)
  /\ (taken_core f = 0 -> pt_data f = Raise ZeroDivisionError)
  /\ (taken_core_r f = 0 -> pt_data_r f = Raise ZeroDivisionError)
  /\ (taken_core f = 0 \/ taken_core_r f = 0 ->
      forall t, full_app py_str true f t = (t, Raise ZeroDivisionError)).
Proof.
  intro Hb. apply cores_in_bounds_inv in Hb.
  repeat apply conj.
  - intros d Hpos H. derived H. split; [reflexivity |].
    apply percent_positive_close; lia.
  - intros d Hpos H. derived H. split; [reflexivity |].
    apply percent_positive_close; lia.
  - intros Hv Ht. eexists. apply pt_data_ok; [assumption | lia].
  - intros Hv Ht. eexists. apply pt_data_r_ok; [assumption | lia].
  - apply pt_data_no_cores.
  - apply pt_data_r_no_cores.
  - intros [Ht | Ht] t.
    + apply full_app_left_fails. now apply pt_data_no_cores.
    + eapply full_app_right_fails. now apply pt_data_r_no_cores.
Qed.

Lemma C3_percent_positive_cores_witness :
  (exists d,
     pt_data seven_of_25_form = Ok d
     /\ feature PercentPositiveCores d = Some (VFloat (percent_positive 7 25))
     /\ (Qabs (percent_positive 7 25 - 100 * inject_Z 7 / inject_Z 25)
         <= 100 * inject_Z 7 / inject_Z 25 * (1 # 2 ^ 52))%Q)
  /\ full_app (fun _ => "0.0") true no_cores_form []
     = ([], Raise ZeroDivisionError)
  /\ full_app (fun _ => "0.0") true no_cores_right_form []
     = ([], Raise ZeroDivisionError).
Proof.
  pose proof (C3_percent_positive_cores (fun _ => "0.0") seven_of_25_form
                eq_refl) as (Hl & _).
  pose proof (C3_percent_positive_cores (fun _ => "0.0") no_cores_form
                eq_refl) as (_ & _ & _ & _ & _ & _ & Hz).
  pose proof (C3_percent_positive_cores (fun _ => "0.0") no_cores_right_form
                eq_refl) as (_ & _ & _ & _ & _ & _ & Hzr).
  split; [| split].
  - eexists. split; [reflexivity |]. apply Hl; reflexivity.
  - apply Hz. left. reflexivity.
  - apply Hzr. right. reflexivity.
Defined.

(** ** Inputs outside the widgets' bounds *)




(** ** How a run within the widgets' bounds ends *)

(** X3.  A run that raises leaves the trace exactly as it found it, with or
    without the submit button pressed.  For a form within the widgets'
    bounds the only error is [ZeroDivisionError], raised exactly when the
    volume or a lobe's cores taken is zero. *)
Theorem X3_failed_run_adds_no_event (py_str : Q -> string) (submitted : bool)
        (f : form) (t : list event) :
  (forall e, snd (full_app py_str submitted f t) = Raise e ->
             fst (full_app py_str submitted f t) = t)
  /\ (in_domain f = true ->
      forall e, snd (full_app py_str true f t) = Raise e <->
                (e = ZeroDivisionError
                 /\ ((vol f == 0)%Q \/ taken_core f = 0 \/ taken_core_r f = 0))).
Proof.
  split.
  - intros e. destruct submitted; [| discriminate].
    destruct (full_app_cases py_str f t)
      as [(_ & E) | [(_ & _ & _ & _ & E) | (_ & _ & _ & _ & d & d_r & _ & _ & E)]];
      rewrite E; simpl; [reflexivity | reflexivity | discriminate].
  - intros Hd e. pose proof (in_domain_grades _ Hd) as Hg.
    destruct (full_app_cases py_str f t)
      as [(Hz & E) | [(_ & _ & _ & Hg' & _) | (Hv & Ht & Htr & _ & d & d_r & _ & _ & E)]];
      [| congruence |]; rewrite E; simpl.
    + split; [intro H; injection H as <-; now split |].
      intros [-> _]. reflexivity.
    + split; [discriminate |].
      intros [_ [Hz | [Hz | Hz]]]; contradiction.
Qed.

Lemma X3_failed_run_witness :
  fst (full_app (fun _ => "7.5") true no_cores_form
                [draw_text (0, 0) "earlier"]) =
  [draw_text (0, 0) "earlier"].
Proof.
  apply (proj1 (X3_failed_run_adds_no_event (fun _ => "7.5") true
                  no_cores_form [draw_text (0, 0) "earlier"])
               ZeroDivisionError).
  reflexivity.
Defined.

(** X4.  For a form within the widgets' bounds, a submitted run completes
    exactly when the volume and both lobes' cores taken are non-zero: the
    six grades are then always among the keys of [G_CHOICES]. *)
Theorem X4_run_completes_iff (py_str : Q -> string) (f : form)
        (t : list event) :
  in_domain f = true ->
  (snd (full_app py_str true f t) = Ok tt <->
   (~ (vol f == 0)%Q /\ taken_core f <> 0 /\ taken_core_r f <> 0)).
Proof.
  intro Hd. pose proof (in_domain_grades _ Hd) as Hg.
  destruct (full_app_cases py_str f t)
    as [(Hz & E) | [(_ & _ & _ & Hg' & _) | (Hv & Ht & Htr & _ & d & d_r & _ & _ & E)]];
    [| congruence |]; rewrite E; simpl.
  - split; [discriminate |]. intros (Hv & Ht & Htr).
    destruct Hz as [Hz | [Hz | Hz]]; contradiction.
  - split; [intros _; repeat split; assumption | reflexivity].
Qed.

Lemma X4_run_completes_witness :
  snd (full_app (fun _ => "7.5") true default_form []) = Ok tt.
Proof.
  apply (X4_run_completes_iff (fun _ => "7.5") default_form [] eq_refl).
  repeat split; intro H; discriminate H.
Defined.

(** ** What a completed run draws *)

Lemma overlay_table_pastes (g : Z) (pos : position) (sd : side) :
  forallb is_paste (overlay_table g pos sd) = true.
Proof. unfold overlay_table. destruct ((1 <=? g) && (g <=? 5)); reflexivity. Qed.

Lemma overlay_table_length (g : Z) (pos : position) (sd : side) :
  is_grade g = true ->
  List.length (overlay_table g pos sd) = if negb (g =? 0) then 1%nat else 0%nat.
Proof.
  intro H. apply is_grade_cases in H.
  destruct H as [-> | [-> | [-> | [-> | [-> | ->]]]]]; reflexivity.
Qed.

Lemma site_overlays_paste (f : form) (l : list (position * side)) :
  forallb is_paste (flat_map (site_overlay f) l) = true.
Proof.
  induction l as [| s l IH]; simpl; [reflexivity |].
  rewrite forallb_app, IH. unfold site_overlay.
  now rewrite overlay_table_pastes.
Qed.

Lemma site_overlays_length (f : form) (l : list (position * side)) :
  (forall s, In s l -> is_grade (site_grade f (fst s) (snd s)) = true) ->
  List.length (flat_map (site_overlay f) l) =
  List.length (filter (fun s => negb (site_grade f (fst s) (snd s) =? 0)) l).
Proof.
  induction l as [| s l IH]; intro H; simpl; [reflexivity |].
  rewrite length_app, IH by (intros; apply H; now right).
  unfold site_overlay. rewrite overlay_table_length by (apply H; now left).
  destruct (negb (site_grade f (fst s) (snd s) =? 0)); reflexivity.
Qed.

Lemma site_texts_draw (py_str : Q -> string) (f : form)
      (l : list (position * side)) :
  forallb is_draw_text (map (site_text py_str f) l) = true.
Proof. induction l as [| s l IH]; simpl; [reflexivity | exact IH]. Qed.

(** X5.  The events of a completed run are, in this order: one paste for
    each site whose finding is not benign and none for a benign site, then
    six text labels, one per site whether benign or not, then the four
    explainer calls.  So no label is drawn before the last overlay is
    pasted, and the explainer is called only after the diagram is done. *)
Theorem X5_completed_run_events (py_str : Q -> string) (f : form)
        (t : list event) :
  snd (full_app py_str true f t) = Ok tt ->
  exists pastes texts calls,
    fst (full_app py_str true f t) = t ++ pastes ++ texts ++ calls
    /\ forallb is_paste pastes = true
    /\ List.length pastes = List.length (malignant_sites f)
    /\ forallb is_draw_text texts = true
    /\ List.length texts = 6%nat
    /\ forallb is_explainer_call calls = true
    /\ List.length calls = 4%nat.
Proof.
  intro Hok.
  destruct (full_app_cases py_str f t)
    as [(_ & E) | [(_ & _ & _ & _ & E) | (_ & _ & _ & Hg & d & d_r & _ & _ & E)]];
    rewrite E in Hok |- *; simpl in Hok; try discriminate.
  exists (flat_map (site_overlay f) sites), (map (site_text py_str f) sites).
  eexists. split; [reflexivity |].
  split; [apply site_overlays_paste |].
  split.
  { apply site_overlays_length. intros s _.
    now apply all_grades_listed_true. }
  split; [apply site_texts_draw |].
  repeat split.
Qed.

Lemma X5_completed_run_witness :
  exists pastes texts calls,
    fst (full_app (fun _ => "7.5") true default_form []) =
      [] ++ pastes ++ texts ++ calls
    /\ forallb is_paste pastes = true
    /\ List.length pastes = List.length (malignant_sites default_form)
    /\ forallb is_draw_text texts = true
    /\ List.length texts = 6%nat
    /\ forallb is_explainer_call calls = true
    /\ List.length calls = 4%nat.
Proof.
  apply (X5_completed_run_events (fun _ => "7.5") default_form []).
  reflexivity.
Defined.

(** ** What the two vectors share and what each depends on *)

(** X6.  When both vectors are derived they hold the same value under age,
    PSA density, perineural invasion and percent pattern 4/5, the
    patient-level columns, and also under worst Gleason grade group. *)
Theorem X6_vectors_share_patient_fields (f : form) (d d_r : dict) (x : field) :
  pt_data f = Ok d -> pt_data_r f = Ok d_r ->
  In x shared_fields ->
  feature x d = feature x d_r /\ feature x d <> None.
Proof.
  intros Hl Hr Hx. derived Hl. derived Hr.
  simpl in Hx.
  destruct Hx as [<- | [<- | [<- | [<- | [<- | []]]]]];
    (split; [reflexivity | discriminate]).
Qed.

Lemma X6_vectors_share_witness :
  exists d d_r,
    pt_data default_form = Ok d /\ pt_data_r default_form = Ok d_r
    /\ feature WorstGradeGroup d = feature WorstGradeGroup d_r.
Proof.
  do 2 eexists. split; [reflexivity |]. split; [reflexivity |].
  apply (X6_vectors_share_patient_fields default_form _ _ WorstGradeGroup
           eq_refl eq_refl).
  simpl. right. left. reflexivity.
Defined.

(** Rewrites with every equation between field values in the context. *)
Ltac rewrite_equations :=
  repeat match goal with
         | H : ?a = ?b |- _ => rewrite H; clear H
         end.

(** X7.  The left vector is a function of the patient-level entries and
    the left lobe's entries alone: changing any right-lobe entry leaves
    the outcome of the left derivation as it was. *)
Theorem X7_left_vector_ignores_right_lobe (f f' : form) :
  left_inputs f = left_inputs f' -> pt_data f = pt_data f'.
Proof.
  intro H. unfold left_inputs, left_sites in H.
  injection H as ? ? ? ? ? ? ? ?.
  unfold pt_data, sort_g_p_inv, g_p_inv, gleason_t, p_inv_t.
  rewrite_equations. reflexivity.
Qed.

Lemma X7_left_vector_witness :
  pt_data default_form = pt_data other_right_form.
Proof.
  apply (X7_left_vector_ignores_right_lobe default_form other_right_form).
  reflexivity.
Defined.

(** X8.  The right vector depends on the left lobe through the largest of
    the three left grades and nothing else: two forms with the same
    patient-level and right-lobe entries and the same largest left grade
    have the same right derivation outcome, whatever the left
    involvements and core counts are.  The dependence is real: raising a
    left grade can change the right vector. *)
Theorem X8_right_vector_reads_left_worst_grade (f f' : form) :
  (right_inputs f = right_inputs f' ->
   left_worst_grade f = left_worst_grade f' ->
   pt_data_r f = pt_data_r f')
  /\ (right_inputs default_form = right_inputs other_left_form
      /\ pt_data_r default_form <> pt_data_r other_left_form).
Proof.
  split.
  - intros H Hw. unfold pt_data_r.
    rewrite !Gleason_max_left. fold (left_worst_grade f).
    fold (left_worst_grade f'). rewrite Hw.
    unfold right_inputs, right_sites in H. injection H as ? ? ? ? ? ? ? ?.
    unfold sort_g_p_inv_r, g_p_inv_r, gleason_t_r, p_inv_t_r.
    rewrite_equations. reflexivity.
  - split; [reflexivity | discriminate].
Qed.

Lemma X8_right_vector_witness :
  pt_data_r default_form = pt_data_r same_worst_left_form.
Proof.
  apply (X8_right_vector_reads_left_worst_grade default_form
           same_worst_left_form); reflexivity.
Defined.

(** ** Ranges of the derived values *)

Lemma is_percent_bounds (p : Q) : is_percent p = true -> (0 <= p <= 100)%Q.
Proof.
  unfold is_percent, in_Q_range. intro H.
  apply andb_true_iff in H. destruct H as [H0 H1].
  apply Qle_bool_iff in H0, H1. now split.
Qed.

Lemma in_Z_range_bounds (lo hi x : Z) : in_Z_range lo hi x = true -> lo <= x <= hi.
Proof.
  unfold in_Z_range. intro H.
  apply andb_true_iff in H. destruct H as [H0 H1].
  apply Z.leb_le in H0, H1. now split.
Qed.

Lemma is_max_Q_bounds (q a b c lo hi : Q) :
  is_max_Q q [a; b; c] ->
  (lo <= a <= hi)%Q -> (lo <= b <= hi)%Q -> (lo <= c <= hi)%Q ->
  (lo <= q <= hi)%Q.
Proof.
  intros [Hin _] Ha Hb Hc. simpl in Hin.
  destruct Hin as [<- | [<- | [<- | []]]]; assumption.
Qed.

Lemma percent_positive_bounds (p t : Z) :
  0 <= p <= 30 -> 1 <= t <= 30 ->
  (0 <= percent_positive p t <= 3000)%Q
  /\ ((percent_positive p t <= 100)%Q <-> p <= t).
Proof.
  intros Hp Ht. destruct (percent_positive_facts p t Hp Ht) as [_ H].
  unfold percent_in_range in H. rewrite !andb_true_iff in H.
  destruct H as [[H0 H1] H2].
  apply Qle_bool_iff in H0, H1. apply eqb_prop in H2.
  split; [now split |].
  rewrite <- Qle_bool_iff, H2. apply Z.leb_le.
Qed.

(** X9.  For a form within the widgets' bounds, every derived vector has a
    worst Gleason grade group between 0 and 5, a maximum percent core
    involvement between 0 and 100 and a PSA density that is not negative. *)
Theorem X9_in_domain_ranges (f : form) :
  in_domain f = true ->
  (forall d, pt_data f = Ok d ->
     exists w m q,
       feature WorstGradeGroup d = Some (VInt w) /\ 0 <= w <= 5
       /\ feature MaxPercentCoreInvolvement d = Some (VFloat m)
       /\ (0 <= m <= 100)%Q
       /\ feature PsaDensity d = Some (VFloat q) /\ (0 <= q)%Q)
  /\ (forall d, pt_data_r f = Ok d ->
        exists w m q,
          feature WorstGradeGroup d = Some (VInt w) /\ 0 <= w <= 5
          /\ feature MaxPercentCoreInvolvement d = Some (VFloat m)
          /\ (0 <= m <= 100)%Q
          /\ feature PsaDensity d = Some (VFloat q) /\ (0 <= q)%Q).
Proof.
  intro Hd. unfold in_domain in Hd. split_andb.
  assert (Hw : 0 <= left_worst_grade f <= 5).
  { unfold left_worst_grade.
    repeat match goal with
           | H : is_grade _ = true |- _ =>
               apply in_Z_range_bounds in H
           end.
    lia. }
  assert (Hq : (0 <= psa f / vol f)%Q).
  { repeat match goal with
           | H : in_Q_range _ _ _ = true |- _ =>
               apply andb_true_iff in H; destruct H as [H _];
               apply Qle_bool_iff in H
           end.
    apply Qmult_le_0_compat; [assumption | now apply Qinv_le_0_compat]. }
  repeat match goal with
         | H : is_percent _ = true |- _ => apply is_percent_bounds in H
         end.
  split; intros d Hpt; derived Hpt.
  - destruct (core_involvement_max_three (g_p_inv f) _ _ _ eq_refl)
      as (m & Hm & Hmax).
    exists (left_worst_grade f), m, (psa f / vol f)%Q.
    rewrite Gleason_max_left. unfold sort_g_p_inv. rewrite Hm.
    repeat (split; [reflexivity || assumption |]).
    split; [| split; [reflexivity | assumption]].
    eapply is_max_Q_bounds; eauto.
  - destruct (core_involvement_max_three (g_p_inv_r f) _ _ _ eq_refl)
      as (m & Hm & Hmax).
    exists (left_worst_grade f), m, (psa f / vol f)%Q.
    rewrite Gleason_max_left. unfold sort_g_p_inv_r. rewrite Hm.
    repeat (split; [reflexivity || assumption |]).
    split; [| split; [reflexivity | assumption]].
    eapply is_max_Q_bounds; eauto.
Qed.

Lemma X9_in_domain_ranges_witness :
  exists d w m q,
    pt_data_r default_form = Ok d
    /\ feature WorstGradeGroup d = Some (VInt w) /\ 0 <= w <= 5
    /\ feature MaxPercentCoreInvolvement d = Some (VFloat m)
    /\ (0 <= m <= 100)%Q
    /\ feature PsaDensity d = Some (VFloat q) /\ (0 <= q)%Q.
Proof.
  destruct (proj2 (X9_in_domain_ranges default_form eq_refl) _ eq_refl)
    as (w & m & q & H).
  eexists. exists w, m, q. split; [reflexivity | exact H].
Defined.

(** X10.  For a form within the widgets' bounds, the derived percent
    positive cores lies between 0 and 3000, and it is at most 100 exactly
    when the lobe's positive cores do not exceed its cores taken: the form
    accepts more positive cores than cores taken, and the derivation then
    yields more than 100 percent. *)
Theorem X10_percent_positive_range (f : form) :
  in_domain f = true ->
  (forall d, pt_data f = Ok d ->
     exists q, feature PercentPositiveCores d = Some (VFloat q)
               /\ (0 <= q <= 3000)%Q
               /\ ((q <= 100)%Q <-> pos_core f <= taken_core f))
  /\ (forall d, pt_data_r f = Ok d ->
        exists q, feature PercentPositiveCores d = Some (VFloat q)
                  /\ (0 <= q <= 3000)%Q
                  /\ ((q <= 100)%Q <-> pos_core_r f <= taken_core_r f)).
Proof.
  intro Hd. unfold in_domain in Hd. split_andb.
  repeat match goal with
         | H : in_Z_range _ _ _ = true |- _ => apply in_Z_range_bounds in H
         end.
  split; intros d Hpt; derived Hpt; eexists; (split; [reflexivity |]);
    apply percent_positive_bounds; lia.
Qed.

Lemma X10_percent_positive_witness :
  exists d q,
    pt_data many_positive_form = Ok d
    /\ feature PercentPositiveCores d = Some (VFloat q)
    /\ (0 <= q <= 3000)%Q
    /\ ((q <= 100)%Q <-> 30 <= 1).
Proof.
  destruct (proj1 (X10_percent_positive_range many_positive_form eq_refl)
                  _ eq_refl) as (q & H).
  eexists. exists q. split; [reflexivity | exact H].
Defined.

(** ** The severity sort *)

Lemma precedes_true_iff (a b : row) :
  precedes a b = true <->
  Gleason b < Gleason a
  \/ (Gleason a = Gleason b /\ (core_involvement b < core_involvement a)%Q).
Proof.
  unfold precedes. rewrite orb_true_iff, andb_true_iff, Z.ltb_lt, Z.eqb_eq.
  assert (C : match (core_involvement a ?= core_involvement b)%Q with
              | Gt => true
              | _ => false
              end = true
              <-> (core_involvement b < core_involvement a)%Q).
  { rewrite (Qgt_alt (core_involvement a) (core_involvement b)).
    destruct (core_involvement a ?= core_involvement b)%Q;
      split; congruence. }
  rewrite C. tauto.
Qed.

Lemma precedes_false_iff (a b : row) :
  precedes a b = false <->
  Gleason a < Gleason b
  \/ (Gleason a = Gleason b /\ (core_involvement a <= core_involvement b)%Q).
Proof.
  rewrite <- not_true_iff_false, precedes_true_iff. split.
  - intro H.
    destruct (Z.lt_trichotomy (Gleason a) (Gleason b)) as [L | [E | G]].
    + now left.
    + right. split; [exact E |]. apply Qnot_lt_le. intro L. apply H. now right.
    + exfalso. apply H. now left.
  - intros [L | [E L]] [G | [E' G]]; try lia.
    apply (Qlt_irrefl (core_involvement a)).
    eapply Qle_lt_trans; eassumption.
Qed.

(** A row that is not behind [y] may stand before whatever [y] may stand
    before, provided its index is smaller. *)
Lemma row_before_chain (x y z : row) :
  precedes y x = false -> row_before y z -> (index x < index z)%nat ->
  row_before x z.
Proof.
  unfold row_before. rewrite !precedes_true_iff, !precedes_false_iff.
  intros Hyx Hyz Hi.
  assert (Hx : Gleason y <= Gleason x
               /\ (Gleason y = Gleason x ->
                   (core_involvement y <= core_involvement x)%Q)).
  { destruct Hyx as [L | [E L]]; split; try lia; intros; assumption. }
  assert (Hz : Gleason z <= Gleason y
               /\ (Gleason z = Gleason y ->
                   (core_involvement z <= core_involvement y)%Q)).
  { destruct Hyz as [[L | [E L]] | (_ & [L | [E L]] & _)];
      split; try lia; intros; try assumption.
    now apply Qlt_le_weak. }
  destruct Hx as [Gx Px], Hz as [Gz Pz].
  destruct (Z.lt_trichotomy (Gleason x) (Gleason z)) as [L | [E | G]].
  - lia.
  - assert (Pzx : (core_involvement z <= core_involvement x)%Q)
      by (eapply Qle_trans; [apply Pz | apply Px]; lia).
    destruct (Qlt_le_dec (core_involvement z) (core_involvement x)) as [Lq | Lq].
    + left. right. now split.
    + right. split; [right; split; [exact E | exact Lq] |].
      split; [| exact Hi]. right. split; [now symmetry | exact Pzx].
  - left. now left.
Qed.

Lemma row_before_of_not_behind (x y : row) :
  precedes y x = false -> (index x < index y)%nat -> row_before x y.
Proof.
  intros H Hi. unfold row_before.
  destruct (precedes x y) eqn:E; [now left | right; auto].
Qed.

Lemma insert_row_ranked (x : row) (l : frame) :
  ranked l -> Forall (fun y => (index x < index y)%nat) l ->
  ranked (insert_row x l).
Proof.
  induction l as [| y t IH]; simpl; intros Hr Hi.
  - split; [constructor | exact I].
  - destruct Hr as [Hy Ht]. inversion Hi as [| ? ? Hiy Hit]; subst.
    destruct (precedes y x) eqn:E; simpl.
    + split; [| now apply IH].
      eapply Permutation_Forall;
        [apply Permutation_sym, insert_row_perm |].
      constructor; [now left | exact Hy].
    + split; [| now split].
      constructor; [now apply row_before_of_not_behind |].
      rewrite Forall_forall in *. intros z Hz.
      eapply row_before_chain; eauto.
Qed.

Lemma sort_values_ranked (df : frame) :
  index_increasing df -> ranked (sort_values df).
Proof.
  induction df as [| x t IH]; simpl; [trivial |].
  intros [Hx Ht]. apply insert_row_ranked; [now apply IH |].
  eapply Permutation_Forall; [apply Permutation_sym, sort_values_perm | exact Hx].
Qed.

Lemma frame_from_indices (gs : list Z) (ps : list Q) (i : nat) :
  Forall (fun y => (i <= index y)%nat) (frame_from i gs ps)
  /\ index_increasing (frame_from i gs ps).
Proof.
  revert ps i. induction gs as [| g gs IH]; intros ps i; simpl.
  - split; [constructor | exact I].
  - destruct ps as [| p ps]; simpl; [split; [constructor | exact I] |].
    destruct (IH ps (S i)) as [Hge Hinc].
    assert (Hlt : Forall (fun y => (i < index y)%nat) (frame_from (S i) gs ps)).
    { rewrite Forall_forall in *. intros y Hy.
      specialize (Hge y Hy). simpl. lia. }
    split; [| now split].
    constructor; [simpl; lia |].
    rewrite Forall_forall in *. intros y Hy. specialize (Hlt y Hy). lia.
Qed.

(** X11.  Sorting a freshly built frame by grade then involvement, both
    descending, keeps exactly its rows and orders them so that every row
    comes before each later row: it has the higher grade, or the same
    grade and the higher involvement, or it ties on both and was the
    earlier row of the unsorted frame. *)
Theorem X11_sort_values_ranks_rows (gs : list Z) (ps : list Q) :
  Permutation (sort_values (DataFrame gs ps)) (DataFrame gs ps)
  /\ ranked (sort_values (DataFrame gs ps)).
Proof.
  split; [apply sort_values_perm |].
  apply sort_values_ranked. apply frame_from_indices.
Qed.

(** The first row of a ranked frame is behind no row of the frame. *)
Lemma ranked_head (r : row) (rest : frame) (y : row) :
  ranked (r :: rest) -> In y (r :: rest) -> precedes y r = false.
Proof.
  intros [Hr _] [<- | Hy].
  - apply precedes_false_iff. right. split; [reflexivity | apply Qle_refl].
  - rewrite Forall_forall in Hr. specialize (Hr y Hy).
    destruct Hr as [Hp | (_ & Hp & _)]; [| exact Hp].
    apply precedes_true_iff in Hp. apply precedes_false_iff.
    destruct Hp as [L | [E L]]; [now left |].
    right. split; [now symmetry | now apply Qlt_le_weak].
Qed.

(** X12.  The first row of the severity-sorted frame is a row of the frame
    that carries the frame's highest grade and, among the rows of that
    grade, the highest involvement.  The column maximum the derivation
    takes instead is never below that row's involvement. *)
Theorem X12_first_sorted_row (gs : list Z) (ps : list Q) (r : row)
        (rest : frame) :
  sort_values (DataFrame gs ps) = r :: rest ->
  In r (DataFrame gs ps)
  /\ Gleason_max (sort_values (DataFrame gs ps)) = VInt (Gleason r)
  /\ (forall y, In y (DataFrame gs ps) ->
        Gleason y <= Gleason r
        /\ (Gleason y = Gleason r ->
            (core_involvement y <= core_involvement r)%Q))
  /\ exists m, core_involvement_max (sort_values (DataFrame gs ps)) = VFloat m
               /\ (core_involvement r <= m)%Q.
Proof.
  intro Hs.
  pose proof (sort_values_perm (DataFrame gs ps)) as P.
  pose proof (sort_values_ranked _ (proj2 (frame_from_indices gs ps 0))) as R.
  fold (DataFrame gs ps) in R. rewrite Hs in P, R.
  assert (Hhead : forall y, In y (DataFrame gs ps) ->
            Gleason y <= Gleason r
            /\ (Gleason y = Gleason r ->
                (core_involvement y <= core_involvement r)%Q)).
  { intros y Hy.
    assert (Hy' : In y (r :: rest))
      by (eapply Permutation_in; [apply Permutation_sym |]; eauto).
    pose proof (ranked_head _ _ _ R Hy') as Hp.
    apply precedes_false_iff in Hp.
    destruct Hp as [L | [E L]]; split; try lia; intros; assumption. }
  split; [eapply Permutation_in; [exact P | now left] |].
  rewrite Hs. unfold Gleason_max, core_involvement_max. simpl.
  split; [| split; [exact Hhead |]].
  - f_equal.
    eapply (is_max_Z_unique (Gleason r :: map Gleason rest)
                            (Gleason r :: map Gleason rest));
      [apply Permutation_refl | apply fold_left_Zmax_is_max |].
    split; [now left |]. rewrite Forall_forall. intros g Hg.
    change (In g (map Gleason (r :: rest))) in Hg.
    apply in_map_iff in Hg. destruct Hg as (y & <- & Hy).
    apply Hhead. eapply Permutation_in; eauto.
  - eexists. split; [reflexivity |].
    destruct (fold_left_Qmax_is_max (map core_involvement rest)
                                    (core_involvement r)) as [_ Hall].
    inversion Hall; assumption.
Qed.

Lemma X12_first_sorted_row_witness :
  exists r rest,
    sort_g_p_inv tied_form = r :: rest
    /\ Gleason_max (sort_g_p_inv tied_form) = VInt (Gleason r)
    /\ exists m, core_involvement_max (sort_g_p_inv tied_form) = VFloat m
                 /\ (core_involvement r <= m)%Q.
Proof.
  destruct (X12_first_sorted_row (gleason_t tied_form) (p_inv_t tied_form)
              _ _ eq_refl) as (_ & Hg & _ & Hm).
  do 2 eexists. split; [reflexivity |]. split; [exact Hg | exact Hm].
Defined.

(** ** Consistency between the entries of a vector *)

Lemma is_max_Q_three (q a b c : Q) :
  is_max_Q q [a; b; c] -> (a <= q)%Q /\ (b <= q)%Q /\ (c <= q)%Q.
Proof.
  intros [_ Hall].
  inversion Hall as [| ? ? Ha Hall1]; subst.
  inversion Hall1 as [| ? ? Hb Hall2]; subst.
  inversion Hall2 as [| ? ? Hc _]; subst.
  now repeat split.
Qed.

(** X17.  In every derived vector the maximum percent core involvement is
    at least each of the base, mid and apex involvements stored beside it,
    and in the left vector the worst Gleason grade group is at least the
    base finding stored beside it. *)
Theorem X17_vector_entries_consistent (f : form) :
  (forall d, pt_data f = Ok d ->
     exists w b m pb pm pa,
       feature WorstGradeGroup d = Some (VInt w)
       /\ feature BaseFinding d = Some (VInt b)
       /\ b <= w
       /\ feature MaxPercentCoreInvolvement d = Some (VFloat m)
       /\ feature BasePercentCoreInvolvement d = Some (VFloat pb)
       /\ feature MidPercentCoreInvolvement d = Some (VFloat pm)
       /\ feature ApexPercentCoreInvolvement d = Some (VFloat pa)
       /\ (pb <= m)%Q /\ (pm <= m)%Q /\ (pa <= m)%Q)
  /\ (forall d, pt_data_r f = Ok d ->
        exists m pb pm pa,
          feature MaxPercentCoreInvolvement d = Some (VFloat m)
          /\ feature BasePercentCoreInvolvement d = Some (VFloat pb)
          /\ feature MidPercentCoreInvolvement d = Some (VFloat pm)
          /\ feature ApexPercentCoreInvolvement d = Some (VFloat pa)
          /\ (pb <= m)%Q /\ (pm <= m)%Q /\ (pa <= m)%Q).
Proof.
  split; intros d H; derived H.
  - destruct (core_involvement_max_three (g_p_inv f) _ _ _ eq_refl)
      as (m & Hm & Hmax).
    apply is_max_Q_three in Hmax.
    exists (left_worst_grade f), (base_findings f), m,
      (base_p_inv f), (mid_p_inv f), (apex_p_inv f).
    rewrite Gleason_max_left. unfold sort_g_p_inv. rewrite Hm.
    split; [reflexivity |]. split; [reflexivity |].
    split; [unfold left_worst_grade; lia |].
    repeat (split; [reflexivity |]). exact Hmax.
  - destruct (core_involvement_max_three (g_p_inv_r f) _ _ _ eq_refl)
      as (m & Hm & Hmax).
    apply is_max_Q_three in Hmax.
    exists m, (base_p_inv_r f), (mid_p_inv_r f), (apex_p_inv_r f).
    unfold sort_g_p_inv_r. rewrite Hm.
    repeat (split; [reflexivity |]). exact Hmax.
Qed.

Lemma X17_vector_entries_witness :
  exists d m pb pm pa,
    pt_data_r tied_form = Ok d
    /\ feature MaxPercentCoreInvolvement d = Some (VFloat m)
    /\ feature BasePercentCoreInvolvement d = Some (VFloat pb)
    /\ feature MidPercentCoreInvolvement d = Some (VFloat pm)
    /\ feature ApexPercentCoreInvolvement d = Some (VFloat pa)
    /\ (pb <= m)%Q /\ (pm <= m)%Q /\ (pa <= m)%Q.
Proof.
  destruct (proj2 (X17_vector_entries_consistent tied_form) _ eq_refl)
    as (m & pb & pm & pa & H).
  eexists. exists m, pb, pm, pa. split; [reflexivity | exact H].
Defined.

(** * Properties of [load_items] *)

Section LoadItemsFacts.

Variable obj : Type.
Variable remote : string -> obj.
Variable TreeExplainer : obj -> obj -> obj.
Variable call_explainer : obj -> obj -> obj.
Variables Model_location Feature_location : string.

Local Notation "'run'" :=
  (load_items remote TreeExplainer call_explainer
              Model_location Feature_location).

(** What the four objects are, read off the files present at the start. *)
Local Notation "'model_of' fs" :=
  (match fs model_checkpoint with
   | Some o => o
   | None => remote Model_location
   end) (at level 10, fs at level 9).
Local Notation "'features_of' fs" :=
  (match fs feature_checkpoint with
   | Some o => o
   | None => remote Feature_location
   end) (at level 10, fs at level 9).
Local Notation "'explainer_of' fs" :=
  (match fs explainer_checkpoint with
   | Some o => o
   | None => TreeExplainer (model_of fs) (features_of fs)
   end) (at level 10, fs at level 9).
Local Notation "'model_shap_of' fs" :=
  (match fs shap_checkpoint with
   | Some o => o
   | None => call_explainer (explainer_of fs) (features_of fs)
   end) (at level 10, fs at level 9).

(** Decides whether path [p] is a given checkpoint. *)
Ltac which_path p :=
  repeat match goal with
         | |- context [String.eqb p ?c] =>
             let E := fresh "E" in
             destruct (String.eqb p c) eqn:E;
             [ apply String.eqb_eq in E; subst p | ]
         end.

Lemma load_items_result (fs : files obj) :
  returned (run fs) =
    Some (mkItems (model_of fs) (features_of fs)
                  (explainer_of fs) (model_shap_of fs))
  /\ downloads (run fs) =
       (if path_exists model_checkpoint fs then []
        else [(Model_location, model_checkpoint)])
       ++ (if path_exists feature_checkpoint fs then []
           else [(Feature_location, feature_checkpoint)])
  /\ forall p,
       files_after (run fs) p =
       if String.eqb p shap_checkpoint then Some (model_shap_of fs)
       else if String.eqb p explainer_checkpoint then Some (explainer_of fs)
       else if String.eqb p feature_checkpoint then Some (features_of fs)
       else if String.eqb p model_checkpoint then Some (model_of fs)
       else fs p.
Proof.
  unfold load_items, download_file_from_google_drive, path_exists,
    joblib_load, joblib_dump.
  unfold model_checkpoint, feature_checkpoint, explainer_checkpoint,
    shap_checkpoint.
  destruct (fs "model/SEPERA.pkl") as [m |] eqn:Hm;
    destruct (fs "model/Features.pkl") as [ft |] eqn:Hf;
    destruct (fs "model/explainer.pkl") as [e |] eqn:He;
    destruct (fs "model/model shap.pkl") as [sh |] eqn:Hs;
    cbn; repeat progress (rewrite ?Hm, ?Hf, ?He, ?Hs; cbn);
    (split; [reflexivity |]); (split; [reflexivity |]);
    intro p; which_path p; cbn; rewrite ?Hm, ?Hf, ?He, ?Hs; reflexivity.
Qed.

(** X13.  When [load_items] returns, every one of the four checkpoint
    files exists and each returned object is the one its checkpoint file
    then holds. *)
Theorem X13_load_items_leaves_checkpoints (fs : files obj) (it : items obj) :
  returned (run fs) = Some it ->
  (forall p, In p checkpoints ->
             path_exists p (files_after (run fs)) = true)
  /\ joblib_load model_checkpoint (files_after (run fs)) = Some (model it)
  /\ joblib_load feature_checkpoint (files_after (run fs))
     = Some (features it)
  /\ joblib_load explainer_checkpoint (files_after (run fs))
     = Some (explainer it)
  /\ joblib_load shap_checkpoint (files_after (run fs))
     = Some (model_shap it).
Proof.
  destruct (load_items_result fs) as (Hret & _ & Hfiles).
  rewrite Hret. intro H. injection H as <-.
  unfold joblib_load, path_exists. split.
  - intros p Hp. rewrite Hfiles. simpl in Hp.
    destruct Hp as [<- | [<- | [<- | [<- | []]]]]; reflexivity.
  - rewrite !Hfiles. repeat split.
Qed.

(** X14.  [load_items] never overwrites: a file present at the start holds
    the same object afterwards.  It downloads only the model and the
    feature file, each to its own checkpoint and only when that checkpoint
    was missing. *)
Theorem X14_load_items_never_overwrites (fs : files obj) :
  (forall p o, fs p = Some o -> files_after (run fs) p = Some o)
  /\ (forall id dest, In (id, dest) (downloads (run fs)) ->
        path_exists dest fs = false
        /\ ((id, dest) = (Model_location, model_checkpoint)
            \/ (id, dest) = (Feature_location, feature_checkpoint))).
Proof.
  destruct (load_items_result fs) as (_ & Hlog & Hfiles).
  split.
  - intros p o Hp. rewrite Hfiles.
    which_path p; rewrite Hp; try reflexivity.
  - intros id dest Hin. rewrite Hlog in Hin.
    destruct (path_exists model_checkpoint fs) eqn:Em;
      destruct (path_exists feature_checkpoint fs) eqn:Ef;
      simpl in Hin;
      repeat match goal with
             | H : _ \/ _ |- _ => destruct H
             | H : False |- _ => destruct H
             | H : (_, _) = (_, _) |- _ => injection H as <- <-
             end;
      (split; [assumption | auto]).
Qed.

(** X15.  Running [load_items] again on the files it left downloads
    nothing, changes no file and returns the same four objects. *)
Theorem X15_load_items_idempotent (fs : files obj) :
  downloads (run (files_after (run fs))) = []
  /\ returned (run (files_after (run fs))) = returned (run fs)
  /\ forall p, files_after (run (files_after (run fs))) p
               = files_after (run fs) p.
Proof.
  destruct (load_items_result fs) as (Hret & _ & Hfiles).
  destruct (load_items_result (files_after (run fs)))
    as (Hret' & Hlog' & Hfiles').
  assert (Fm : files_after (run fs) model_checkpoint = Some (model_of fs))
    by (rewrite Hfiles; reflexivity).
  assert (Ff : files_after (run fs) feature_checkpoint = Some (features_of fs))
    by (rewrite Hfiles; reflexivity).
  assert (Fe : files_after (run fs) explainer_checkpoint
               = Some (explainer_of fs))
    by (rewrite Hfiles; reflexivity).
  assert (Fs : files_after (run fs) shap_checkpoint = Some (model_shap_of fs))
    by (rewrite Hfiles; reflexivity).
  unfold path_exists in Hlog'.
  rewrite Fm, Ff, Fe, Fs in Hret'. rewrite Fm, Ff in Hlog'.
  split; [exact Hlog' |]. split; [now rewrite Hret', Hret |].
  intro p. rewrite Hfiles', Fm, Ff, Fe, Fs, Hfiles.
  which_path p; reflexivity.
Qed.

(** X16.  A cached file always wins over recomputation: each returned
    object is the content of its checkpoint when that file was present at
    the start, whatever the other files hold, and otherwise the model and
    the features are the downloaded ones, the explainer is built from the
    returned model and features, and the SHAP values are the returned
    explainer applied to the returned features. *)
Theorem X16_load_items_prefers_cached (fs : files obj) :
  exists it,
    returned (run fs) = Some it
    /\ model it = model_of fs
    /\ features it = features_of fs
    /\ explainer it =
       match fs explainer_checkpoint with
       | Some o => o
       | None => TreeExplainer (model it) (features it)
       end
    /\ model_shap it =
       match fs shap_checkpoint with
       | Some o => o
       | None => call_explainer (explainer it) (features it)
       end.
Proof.
  destruct (load_items_result fs) as (Hret & _ & _).
  eexists. split; [exact Hret |]. simpl. repeat split.
Qed.

End LoadItemsFacts.

Lemma X13_load_items_witness :
  path_exists explainer_checkpoint
    (files_after
       (load_items (fun id => id)
                   (fun m f => (m ++ "," ++ f)%string)
                   (fun e f => (e ++ "," ++ f)%string)
                   "model id" "features id" no_files)) = true.
Proof.
  destruct (X13_load_items_leaves_checkpoints
              string (fun id => id)
              (fun m f => (m ++ "," ++ f)%string)
              (fun e f => (e ++ "," ++ f)%string)
              "model id" "features id" no_files _ eq_refl) as (H & _).
  apply H. simpl. right. right. left. reflexivity.
Defined.

Lemma X14_load_items_witness :
  files_after
    (load_items (fun id => id)
                (fun m f => (m ++ "," ++ f)%string)
                (fun e f => (e ++ "," ++ f)%string)
                "model id" "features id"
                (joblib_dump "kept" explainer_checkpoint no_files))
    explainer_checkpoint = Some "kept".
Proof.
  apply (proj1 (X14_load_items_never_overwrites
                  string (fun id => id)
                  (fun m f => (m ++ "," ++ f)%string)
                  (fun e f => (e ++ "," ++ f)%string)
                  "model id" "features id"
                  (joblib_dump "kept" explainer_checkpoint no_files))).
  reflexivity.
Defined.
